(** * tfsnippet: the planar normalizing flow

    A shallow embedding of [tfsnippet/layers/flows/planar_nf.py]: the class
    [PlanarNormalizingFlow] ([__init__], [_build], [explicitly_invertible],
    [_transform], [_inverse_transform]) and the factory
    [planar_normalizing_flows], with the properties of the forward call,
    of the invertibility correction [u_hat] and of the factory.

    How the program is modelled.

    - A tensor is a static shape and its entries in row-major order, the way
      TensorFlow and NumPy store them; a reshape keeps the entries and
      replaces the shape.  Static shapes are taken fully defined.
    - The element type is abstract ([ScalarOps]): the kernels only use the
      operations the source calls ([+], [-], [*], [/], [tf.square],
      [tf.tanh], [tf.nn.softplus], [tf.log], [tf.abs]) and assume no law
      about them.  Sums (in [tf.matmul] and [tf.reduce_sum]) add from the
      left, starting from zero.
    - The program builds a TensorFlow graph: a tensor made by [_build] or
      [_transform] is a node whose value is obtained when a session runs
      it, from the values the variables hold at that time.  An entry of a
      graph tensor is therefore a function of the session ([Node]), and the
      operations on nodes are the pointwise ones.
    - A Python exception is the [Raise] case of [result].
    - The helpers of [tfsnippet.utils] and the base classes of the flow are
      not among the sources; each is modelled from the specification and
      says so.
    - The invertibility guarantee is a statement about real numbers: it is
      proved for the instance [PartialReal] of the scalars, the real
      numbers with no value where an operation has none. *)

From Stdlib Require Import String DecimalString DecimalNat.
From Stdlib Require Import Reals Lra.
From Stdlib Require Import Bool Arith ZArith Lia List.
Import ListNotations.

Set Implicit Arguments.

(** ** Exceptions *)

Inductive Error : Type :=
| ShapeError
| InvalidArgumentError
| UnsupportedOperationError
| NotBuiltError
| AttributeError
| ValueError
| RuntimeError (msg : string).

Inductive result (A : Type) : Type :=
| Ok (a : A)
| Raise (e : Error).

Arguments Ok {A} a.
Arguments Raise {A} e.

Definition bind {A B : Type} (r : result A) (k : A -> result B) : result B :=
  match r with
  | Ok a => k a
  | Raise e => Raise e
  end.

Notation "x <- e ;; k" := (bind e (fun x => k))
  (at level 61, e at next level, right associativity).

(** ** Scalars: the element-wise operations of the tensor library *)

Class ScalarOps (A : Type) : Type := {
  sconst : Z -> A;          (* a Python numeric literal *)
  sadd : A -> A -> A;
  ssub : A -> A -> A;
  smul : A -> A -> A;
  sdiv : A -> A -> A;
  ssquare : A -> A;         (* tf.square *)
  stanh : A -> A;           (* tf.tanh *)
  ssoftplus : A -> A;       (* tf.nn.softplus *)
  slog : A -> A;            (* tf.log *)
  sabs : A -> A             (* tf.abs *)
}.

(** ** Tensors *)

Record Tensor (A : Type) : Type := mkTensor {
  shape : list nat;
  data : list A
}.

Definition rank {A} (t : Tensor A) : nat := length (shape t).

(** Number of entries of a shape. *)
Definition size (s : list nat) : nat := fold_right Nat.mul 1 s.

(** Multi-index of the flat position [k] in a tensor of shape [s]. *)
Fixpoint unravel (s : list nat) (k : nat) : list nat :=
  match s with
  | [] => []
  | _ :: s' => (k / size s') :: unravel s' (k mod size s')
  end.

(** Broadcasting of two dimensions: equal, or one of them is 1. *)
Definition bdim (x y : nat) : option nat :=
  if x =? y then Some x
  else if x =? 1 then Some y
  else if y =? 1 then Some x
  else None.

(** Broadcasting of two shapes, both given last dimension first. *)
Fixpoint bshape_rev (a b : list nat) : option (list nat) :=
  match a, b with
  | [], _ => Some b
  | _, [] => Some a
  | x :: a', y :: b' =>
      match bdim x y, bshape_rev a' b' with
      | Some d, Some r => Some (d :: r)
      | _, _ => None
      end
  end.

Definition broadcast_shape (a b : list nat) : option (list nat) :=
  option_map (@rev nat) (bshape_rev (rev a) (rev b)).

(** Flat position, in an operand of shape [s], of the entry that is
    broadcast to the multi-index [idx] of the result: the leading
    dimensions the operand lacks are dropped, a dimension of size 1 is
    read at 0. *)
Definition bcast_index (s idx : list nat) : nat :=
  fold_left (fun acc di => acc * fst di + (if fst di =? 1 then 0 else snd di))
            (combine s (skipn (length idx - length s) idx)) 0.

Section Kernels.
Context {A : Type} {SA : ScalarOps A}.

Definition entry (t : Tensor A) (k : nat) : A := nth k (data t) (sconst 0).

(** A Python number used as an operand: a tensor of rank 0. *)
Definition constant (z : Z) : Tensor A := mkTensor [] [sconst z].

(** An element-wise unary operation. *)
Definition unary (f : A -> A) (t : Tensor A) : Tensor A :=
  mkTensor (shape t) (map f (data t)).

(** An element-wise binary operation, with broadcasting. *)
Definition broadcast_op (f : A -> A -> A) (a b : Tensor A)
  : result (Tensor A) :=
  match broadcast_shape (shape a) (shape b) with
  | None => Raise ValueError
  | Some s =>
      Ok (mkTensor s
            (map (fun k => let idx := unravel s k in
                           f (entry a (bcast_index (shape a) idx))
                             (entry b (bcast_index (shape b) idx)))
                 (seq 0 (size s))))
  end.

Definition add := broadcast_op sadd.
Definition sub := broadcast_op ssub.
Definition mul := broadcast_op smul.
Definition div := broadcast_op sdiv.

(** Sum of [f l * g l] for [l] below [k], added from the left. *)
Definition dot (k : nat) (f g : nat -> A) : A :=
  fold_left (fun acc l => sadd acc (smul (f l) (g l))) (seq 0 k) (sconst 0).

(** [tf.matmul(a, b, transpose_b=True)] on two matrices: [a] is [m, k],
    [b] is [p, k], the result is [m, p].  (The source only multiplies
    matrices; tensors of another rank are refused here.) *)
Definition matmul_tb (a b : Tensor A) : result (Tensor A) :=
  match shape a, shape b with
  | [m; k], [p; k'] =>
      if k =? k' then
        Ok (mkTensor [m; p]
              (map (fun q => dot k (fun l => entry a ((q / p) * k + l))
                                   (fun l => entry b ((q mod p) * k + l)))
                   (seq 0 (m * p))))
      else Raise ValueError
  | _, _ => Raise ValueError
  end.

(** [tf.reduce_sum(t)]: all entries, to a tensor of rank 0. *)
Definition reduce_sum (t : Tensor A) : Tensor A :=
  mkTensor [] [fold_left sadd (data t) (sconst 0)].

Definition reshape (t : Tensor A) (s : list nat) : result (Tensor A) :=
  if size s =? size (shape t) then Ok (mkTensor s (data t))
  else Raise ValueError.

(** [tf.squeeze(t, -1)]: the last dimension must be 1. *)
Definition squeeze_last (t : Tensor A) : result (Tensor A) :=
  match rev (shape t) with
  | 1 :: r => Ok (mkTensor (rev r) (data t))
  | _ => Raise ValueError
  end.

End Kernels.

(** ** Sessions and graph nodes *)

(** The name of a variable: the variable scopes it was created in,
    outermost first, then its own name (TensorFlow writes [a/b/w]). *)
Definition VarName : Type := list string.

Section Graph.
Context {F : Type} {SF : ScalarOps F}.

(** What a session holds: for each variable, the value of each entry. *)
Definition Session : Type := VarName -> nat -> F.

(** An entry of a graph tensor: computed when a session runs the graph. *)
Definition Node : Type := Session -> F.

#[export] Instance NodeOps : ScalarOps Node := {|
  sconst z := fun _ => sconst z;
  sadd f g := fun st => sadd (f st) (g st);
  ssub f g := fun st => ssub (f st) (g st);
  smul f g := fun st => smul (f st) (g st);
  sdiv f g := fun st => sdiv (f st) (g st);
  ssquare f := fun st => ssquare (f st);
  stanh f := fun st => stanh (f st);
  ssoftplus f := fun st => ssoftplus (f st);
  slog f := fun st => slog (f st);
  sabs f := fun st => sabs (f st)
|}.

(** [session.run(t)]: the value of a graph tensor in a session. *)
Definition run (st : Session) (t : Tensor Node) : Tensor F :=
  mkTensor (shape t) (map (fun g => g st) (data t)).

(** A constant of the graph (an array the caller passes as input). *)
Definition feed (t : Tensor F) : Tensor Node :=
  mkTensor (shape t) (map (fun v => fun _ : Session => v) (data t)).

(** [tf.get_variable(name, shape=shp, ...)] inside the variable scope
    [scope]: the node that reads the variable from the session. *)
Definition get_variable (scope : VarName) (name : string) (shp : list nat)
  : Tensor Node :=
  mkTensor shp (map (fun k => fun st : Session => st (scope ++ [name]) k)
                    (seq 0 (size shp))).

(** An assignment to one entry of a variable (an optimizer step). *)
Definition assign (st : Session) (v : VarName) (k : nat) (x : F) : Session :=
  fun v' k' =>
    if (if list_eq_dec string_dec v v' then k =? k' else false) then x
    else st v' k'.

(** The entries of the variable [name] of the scope [scope], as nodes. *)
Definition param (scope : VarName) (name : string) : nat -> Node :=
  fun k st => st (scope ++ [name]) k.

End Graph.

(** ** Helpers of [tfsnippet.utils] *)

(** One position of an [InputSpec] shape: ['...'], ['?'], ['*'] or a
    number. *)
Inductive DimSpec : Type :=
| Ellipsis
| AnyDim
| KnownDim
| Dim (n : nat).

Definition InputSpec : Type := list DimSpec.

Definition dim_matches (d : DimSpec) (n : nat) : bool :=
  match d with
  | Ellipsis => false
  | AnyDim => true
  | KnownDim => true
  | Dim k => k =? n
  end.

Fixpoint dims_match (ds : list DimSpec) (s : list nat) : bool :=
  match ds, s with
  | [], [] => true
  | d :: ds', n :: s' => dim_matches d n && dims_match ds' s'
  | _, _ => false
  end.

Section Utils.
Context {A : Type} {SA : ScalarOps A}.

(** Modelled from the spec: [InputSpec(shape=...).validate(x)] of
    [tfsnippet.utils], which is not among the sources.  The input is
    accepted when its trailing dimensions match the listed ones, a leading
    ['...'] standing for any number of further dimensions; otherwise the
    call fails with [ShapeError].  With fully defined shapes ['?'] and
    ['*'] both accept every size. *)
Definition validate (spec : InputSpec) (x : Tensor A) : result (Tensor A) :=
  match spec with
  | Ellipsis :: ds =>
      if (length ds <=? rank x)
         && dims_match ds (skipn (rank x - length ds) (shape x))
      then Ok x else Raise ShapeError
  | ds => if dims_match ds (shape x) then Ok x else Raise ShapeError
  end.

(** Modelled from the spec: [flatten(x, k)] of [tfsnippet.utils], which is
    not among the sources.  The leading dimensions are collapsed into one
    so that [k] dimensions remain, and the leading shape is returned (as
    the static and as the run-time front shape) so that it can be
    restored; a tensor that already has [k] dimensions is returned as it
    is, with no front shape. *)
Definition flatten (x : Tensor A) (k : nat)
  : result (Tensor A * option (list nat) * option (list nat)) :=
  if k <? 1 then Raise ValueError
  else if rank x <? k then Raise ValueError
  else if rank x =? k then Ok (x, None, None)
  else
    let front := firstn (rank x - (k - 1)) (shape x) in
    let back := skipn (rank x - (k - 1)) (shape x) in
    x' <- reshape x (size front :: back) ;;
    Ok (x', Some front, Some front).

(** Modelled from the spec: [unflatten(x, s1, s2)] of [tfsnippet.utils],
    which is not among the sources.  The first dimension of [x] is
    replaced by the remembered front shape; with no front shape [x] is
    returned as it is. *)
Definition unflatten (x : Tensor A) (s1 s2 : option (list nat))
  : result (Tensor A) :=
  match s1, s2 with
  | None, None => Ok x
  | _, Some front =>
      if rank x <? 1 then Raise ValueError
      else reshape x (front ++ tl (shape x))
  | Some _, None => Raise ValueError
  end.

End Utils.

(** Modelled from the spec: [validate_positive_int_arg] of
    [tfsnippet.utils], which is not among the sources: the argument must
    be a positive integer, else [InvalidArgumentError]. *)
Definition validate_positive_int_arg (arg_name : string) (n : Z) : result Z :=
  if (0 <? n)%Z then Ok n else Raise InvalidArgumentError.

(** ** The class [PlanarNormalizingFlow] *)

Section Flow.
Context {F : Type} {SF : ScalarOps F}.
Variables Initializer Regularizer : Type.

(** The keyword arguments shared by the constructor and the factory. *)
Record FlowKwargs : Type := mkKwargs {
  w_initializer : Initializer;
  w_regularizer : option Regularizer;
  b_initializer : Initializer;
  b_regularizer : option Regularizer;
  u_initializer : Initializer;
  u_regularizer : option Regularizer;
  trainable : bool
}.

(** The attributes [_build] sets. *)
Record Built : Type := mkBuilt {
  _input_spec : InputSpec;
  _w : Tensor (@Node F);
  _b : Tensor (@Node F);
  _u : Tensor (@Node F);
  _u_hat : Tensor (@Node F)
}.

Record PlanarNormalizingFlow : Type := mkFlow {
  kwargs : FlowKwargs;
  value_ndims : nat;
  variable_scope : VarName;
  _built : option Built
}.

(** Python's [a or b] on an optional string. *)
Definition py_or (a : option string) (b : string) : string :=
  match a with
  | Some (String c s) => String c s
  | _ => b
  end.

(** Modelled from the spec: the constructor of the base class (not among
    the sources) gives each object a variable scope of its own, opened in
    the variable scope [ambient] that is current when the object is made
    and named after [scope], else after [name], else after the class.
    [__init__] keeps the initializers, the regularizers and
    [bool(trainable)], and passes [value_ndims=1]. *)
Definition __init__ (ambient : VarName) (kw : FlowKwargs)
    (name scope : option string) : PlanarNormalizingFlow :=
  mkFlow kw 1
         (ambient ++ [py_or scope (py_or name "planar_normalizing_flow")])
         None.

Definition _build (self : PlanarNormalizingFlow) (input : Tensor (@Node F))
  : result PlanarNormalizingFlow :=
  input <- validate [Ellipsis; AnyDim; KnownDim] input ;;
  let n_units := last (shape input) 0 in
  let spec := [Ellipsis; AnyDim; Dim n_units] in
  let w := get_variable (variable_scope self) "w" [1; n_units] in
  let b := get_variable (variable_scope self) "b" [1] in
  let u := get_variable (variable_scope self) "u" [1; n_units] in
  wu <- matmul_tb w u ;;
  t1 <- add (constant (-1)) (unary ssoftplus wu) ;;
  t2 <- sub t1 wu ;;
  t3 <- mul t2 w ;;
  t4 <- div t3 (reduce_sum (unary ssquare w)) ;;
  u_hat <- add u t4 ;;
  Ok (mkFlow (kwargs self) (value_ndims self) (variable_scope self)
             (Some (mkBuilt spec w b u u_hat))).

Definition explicitly_invertible (self : PlanarNormalizingFlow) : bool := false.

Definition _transform (self : PlanarNormalizingFlow) (x : Tensor (@Node F))
    (compute_y compute_log_det : bool)
  : result (option (Tensor (@Node F)) * option (Tensor (@Node F))) :=
  match _built self with
  | None => Raise AttributeError
  | Some attrs =>
      x <- validate (_input_spec attrs) x ;;
      let w := _w attrs in
      let b := _b attrs in
      let u := _u attrs in
      let u_hat := _u_hat attrs in
      fl <- flatten x 2 ;;
      let '(x, s1, s2) := fl in
      xw <- matmul_tb x w ;;
      wxb <- add xw b ;;
      let tanh_wxb := unary stanh wxb in
      y <- (if compute_y then
              t <- mul u_hat tanh_wxb ;;
              y <- add x t ;;
              y <- unflatten y s1 s2 ;;
              Ok (Some y)
            else Ok None) ;;
      log_det <- (if compute_log_det then
                    grad <- sub (constant 1) (unary ssquare tanh_wxb) ;;
                    phi <- mul grad w ;;
                    u_phi <- matmul_tb phi u_hat ;;
                    det_jac <- add (constant 1) u_phi ;;
                    let log_det := unary slog (unary sabs det_jac) in
                    sq <- squeeze_last log_det ;;
                    log_det <- unflatten sq s1 s2 ;;
                    Ok (Some log_det)
                  else Ok None) ;;
      Ok (y, log_det)
  end.

Definition _inverse_transform (self : PlanarNormalizingFlow)
    (y : Tensor (@Node F)) (compute_x compute_log_det : bool)
  : result (option (Tensor (@Node F)) * option (Tensor (@Node F))) :=
  Raise (RuntimeError "Should never be called.").

(** Modelled from the spec: [build] of the base class (not among the
    sources): the first call with a concrete input runs [_build]; a built
    object is never built again. *)
Definition build (self : PlanarNormalizingFlow) (input : Tensor (@Node F))
  : result PlanarNormalizingFlow :=
  match _built self with
  | Some _ => Ok self
  | None => _build self input
  end.

(** Modelled from the spec: [transform], the forward call of the base
    class (not among the sources): at least one of the two outputs must be
    requested, else [InvalidArgumentError]; the object is built on its
    first call; then [_transform] does the work.  The object is returned
    with the outputs, since the call may have built it. *)
Definition transform (self : PlanarNormalizingFlow) (x : Tensor (@Node F))
    (compute_y compute_log_det : bool)
  : result (PlanarNormalizingFlow
            * (option (Tensor (@Node F)) * option (Tensor (@Node F)))) :=
  if negb compute_y && negb compute_log_det then Raise InvalidArgumentError
  else
    self <- build self x ;;
    out <- _transform self x compute_y compute_log_det ;;
    Ok (self, out).

(** Modelled from the spec: [inverse_transform], the inverse call of the
    base class (not among the sources): a flow that does not declare
    itself explicitly invertible fails with [UnsupportedOperationError];
    otherwise [_inverse_transform] does the work. *)
Definition inverse_transform (self : PlanarNormalizingFlow)
    (y : Tensor (@Node F)) (compute_x compute_log_det : bool)
  : result (option (Tensor (@Node F)) * option (Tensor (@Node F))) :=
  if explicitly_invertible self
  then _inverse_transform self y compute_x compute_log_det
  else Raise UnsupportedOperationError.

(** ** The factory [planar_normalizing_flows] *)

(** Modelled from the spec: the class [SequentialFlow], which is not among
    the sources: an ordered sequence of flows, fixed when it is made.
    [BaseFlow] is what the factory returns: one planar flow or a
    [SequentialFlow] of planar flows. *)
Inductive BaseFlow : Type :=
| Planar (flow : PlanarNormalizingFlow)
| SequentialFlow (flows : list PlanarNormalizingFlow).

(** ['_{}'.format(i)] *)
Definition format_index (i : nat) : string :=
  ("_" ++ NilEmpty.string_of_uint (Nat.to_uint i))%string.

Definition planar_normalizing_flows (ambient : VarName) (n_layers : Z)
    (kw : FlowKwargs) (name scope : option string) : result BaseFlow :=
  n_layers <- validate_positive_int_arg "n_layers" n_layers ;;
  let flow_kwargs := kw in
  if (n_layers =? 1)%Z
  then Ok (Planar (__init__ ambient flow_kwargs name scope))
  else
    let inner :=
      ambient ++ [py_or scope (py_or name "planar_normalizing_flows")] in
    let flows :=
      map (fun i => __init__ inner flow_kwargs (Some (format_index i)) None)
          (seq 0 (Z.to_nat n_layers)) in
    Ok (SequentialFlow flows).

(** The names of the variables a flow creates when it is built. *)
Definition variable_names (self : PlanarNormalizingFlow) : list VarName :=
  [variable_scope self ++ ["w"%string];
   variable_scope self ++ ["b"%string];
   variable_scope self ++ ["u"%string]].

End Flow.

(** ** The formulas of the planar flow, entry by entry

    These follow the docstring of the class and the comments of
    [_transform]; the theorems below compare them with what the tensor
    program computes.  A vector is given by its entries. *)

Section Formulas.
Context {A : Type} {SA : ScalarOps A}.

(** The squared norm of [w], as [tf.reduce_sum(tf.square(w))] adds it. *)
Definition sum_squares (n : nat) (w : nat -> A) : A :=
  fold_left sadd (map (fun k => ssquare (w k)) (seq 0 n)) (sconst 0).

(** [u_hat = u + (-1 + softplus(w.u) - w.u) * w / |w|^2] *)
Definition planar_u_hat (n : nat) (w u : nat -> A) (j : nat) : A :=
  let wu := dot n w u in
  sadd (u j)
       (sdiv (smul (ssub (sadd (sconst (-1)) (ssoftplus wu)) wu) (w j))
             (sum_squares n w)).

(** [y = x + u_hat * tanh(w.x + b)] *)
Definition planar_y (n : nat) (w u : nat -> A) (b : A) (x : nat -> A)
    (j : nat) : A :=
  sadd (x j) (smul (planar_u_hat n w u j) (stanh (sadd (dot n x w) b))).

(** The determinant of the Jacobian,
    [1 + ((1 - tanh^2(w.x + b)) * w) . u_hat] *)
Definition planar_det_jac (n : nat) (w u : nat -> A) (b : A) (x : nat -> A)
  : A :=
  let grad := ssub (sconst 1) (ssquare (stanh (sadd (dot n x w) b))) in
  let u_phi := dot n (fun k => smul grad (w k)) (planar_u_hat n w u) in
  sadd (sconst 1) u_phi.

(** [log |det_jac|] *)
Definition planar_log_det (n : nat) (w u : nat -> A) (b : A) (x : nat -> A)
  : A :=
  slog (sabs (planar_det_jac n w u b x)).

(** The row [i] of a tensor whose last dimension is [n]. *)
Definition row (t : Tensor A) (n i : nat) : nat -> A :=
  fun k => entry t (i * n + k).

End Formulas.

(** ** Exact arithmetic

    The real numbers, with no value ([None]) where an operation has none:
    a division by zero and the logarithm of a number that is not positive.
    (In floating point these give a NaN or an infinity; rounding is not
    modelled.) *)

Definition PartialReal : Type := option R.

Definition lift1 (f : R -> R) (x : PartialReal) : PartialReal :=
  option_map f x.

Definition lift2 (f : R -> R -> R) (x y : PartialReal) : PartialReal :=
  match x, y with
  | Some a, Some b => Some (f a b)
  | _, _ => None
  end.

Definition pdiv (x y : PartialReal) : PartialReal :=
  match x, y with
  | Some a, Some b => if Req_dec_T b 0 then None else Some (a / b)%R
  | _, _ => None
  end.

Definition plog (x : PartialReal) : PartialReal :=
  match x with
  | Some a => if Rlt_dec 0 a then Some (ln a) else None
  | None => None
  end.

Definition softplus (a : R) : R := ln (1 + exp a).

#[export] Instance PartialRealOps : ScalarOps PartialReal := {|
  sconst z := Some (IZR z);
  sadd := lift2 Rplus;
  ssub := lift2 Rminus;
  smul := lift2 Rmult;
  sdiv := pdiv;
  ssquare := lift1 (fun a => a * a)%R;
  stanh := lift1 tanh;
  ssoftplus := lift1 softplus;
  slog := plog;
  sabs := lift1 Rabs
|}.

(** The sum of [h k] for [k] below [n], added from the left. *)
Definition rsum (n : nat) (h : nat -> R) : R :=
  fold_left (fun acc k => acc + h k)%R (seq 0 n) 0%R.

(** The entries of a vector of real numbers. *)
Definition vec (l : list R) : nat -> PartialReal :=
  fun k => nth k (map Some l) (Some 0%R).

(** The session in which the variables [w], [b] and [u] of the scope
    [scope] hold the given real numbers. *)
Definition session_of (scope : VarName) (w u : list R) (b : R)
  : @Session PartialReal :=
  fun v k =>
    if list_eq_dec string_dec v (scope ++ ["w"%string]) then vec w k
    else if list_eq_dec string_dec v (scope ++ ["u"%string]) then vec u k
    else Some b.

Section Guarantee.
Variables Initializer Regularizer : Type.

(** The invertibility guarantee, on the [u_hat] a built flow computes in
    a session: [w . u_hat] is a real number above [-1]. *)
Definition invertible_at
    (self : PlanarNormalizingFlow Initializer Regularizer)
    (n : nat) (st : @Session PartialReal) : Prop :=
  exists attrs r,
    _built self = Some attrs /\
    dot n (st (variable_scope self ++ ["w"%string]))
          (entry (run st (_u_hat attrs))) = Some r /\
    (r > -1)%R.

(** The determinant of the Jacobian at the input row [x], in a session,
    is a real number that is not zero. *)
Definition det_jac_nonzero_at
    (self : PlanarNormalizingFlow (F:=PartialReal) Initializer Regularizer)
    (n : nat) (st : @Session PartialReal) (x : nat -> R) : Prop :=
  exists d,
    planar_det_jac n (st (variable_scope self ++ ["w"%string]))
                     (st (variable_scope self ++ ["u"%string]))
                     (st (variable_scope self ++ ["b"%string]) 0)
                     (fun k => Some (x k)) = Some d /\
    d <> 0%R.

End Guarantee.

(** ** Facts about shapes and indices *)

(** A matrix described entry by entry: [t] has shape [[m; n]], holds
    [m * n] entries, and its entry in row [i] and column [j] is [g i j]. *)
Definition is_matrix {A} {SA : ScalarOps A} (t : Tensor A) (m n : nat)
    (g : nat -> nat -> A) : Prop :=
  shape t = [m; n] /\
  forall i j, i < m -> j < n -> entry t (i * n + j) = g i j.

Definition full {A} (t : Tensor A) : Prop :=
  length (data t) = size (shape t).

(** An operation that succeeds with a full matrix of the given entries. *)
Definition yields {A} {SA : ScalarOps A} (r : result (Tensor A)) (m n : nat)
    (g : nat -> nat -> A) : Prop :=
  exists t, r = Ok t /\ is_matrix t m n g /\ full t.

Section BuiltFor.
Context {F : Type} {SF : ScalarOps F}.
Variables Initializer Regularizer : Type.

(** A flow as [_build] leaves it, for inputs whose last dimension is
    [n]: the three variables of its scope, the input contract, and the
    node [u_hat] with the entries of the correction formula. *)
Definition built_for (self : PlanarNormalizingFlow Initializer Regularizer)
    (n : nat) : Prop :=
  exists u_hat,
    _built self
    = Some (mkBuilt [Ellipsis; AnyDim; Dim n]
              (get_variable (variable_scope self) "w" [1; n])
              (get_variable (variable_scope self) "b" [1])
              (get_variable (variable_scope self) "u" [1; n])
              u_hat) /\
    is_matrix u_hat 1 n
      (fun _ j => planar_u_hat n (param (variable_scope self) "w")
                                 (param (variable_scope self) "u") j) /\
    full u_hat.

End BuiltFor.

(** ** A small flow, to run the definitions on

    A flow with default names, built on a first input of shape [[1; 2]],
    so that [n_units] is 2. *)

Definition example_kwargs : FlowKwargs unit unit :=
  mkKwargs tt None tt None tt None true.

Definition example_x0 : Tensor (@Node PartialReal) :=
  feed (mkTensor [1; 2] [Some 1%R; Some 2%R]).

Definition example_flow0 : PlanarNormalizingFlow (F:=PartialReal) unit unit :=
  __init__ [] example_kwargs None None.

Definition example_flow : PlanarNormalizingFlow (F:=PartialReal) unit unit :=
  match _build example_flow0 example_x0 with
  | Ok self => self
  | Raise _ => example_flow0
  end.

(** An input with two leading dimensions. *)
Definition example_x : Tensor (@Node PartialReal) :=
  feed (mkTensor [2; 1; 2] [Some 1%R; Some 2%R; Some 3%R; Some 4%R]).

(** An input whose last dimension is 3. *)
Definition example_x3 : Tensor (@Node PartialReal) :=
  feed (mkTensor [1; 3] [Some 1%R; Some 2%R; Some 3%R]).

(** ** The flow on real numbers

    The formulas of the docstring, on real parameters and a real input
    row; the theorems show that the program computes them when [w] is
    not zero. *)

Definition real_u_hat (n : nat) (w u : nat -> R) (j : nat) : R :=
  (u j + (-1 + softplus (rsum n (fun k => w k * u k))
          - rsum n (fun k => w k * u k)) * w j
         / rsum n (fun k => w k * w k))%R.

Definition real_y (n : nat) (w u : nat -> R) (b : R) (x : nat -> R)
    (j : nat) : R :=
  (x j + real_u_hat n w u j * tanh (rsum n (fun k => x k * w k) + b))%R.

Definition real_det_jac (n : nat) (w u : nat -> R) (b : R) (x : nat -> R)
  : R :=
  (1 + (1 - tanh (rsum n (fun k => x k * w k) + b)
            * tanh (rsum n (fun k => x k * w k) + b))
       * (softplus (rsum n (fun k => w k * u k)) - 1))%R.

Section RealSession.
Variables Initializer Regularizer : Type.

(** The session holds the real parameters [w], [u], [b] of the flow. *)
Definition holds_parameters
    (self : PlanarNormalizingFlow (F:=PartialReal) Initializer Regularizer)
    (n : nat) (st : @Session PartialReal) (w u : nat -> R) (b : R) : Prop :=
  (forall k, k < n -> st (variable_scope self ++ ["w"%string]) k = Some (w k))
  /\
  (forall k, k < n -> st (variable_scope self ++ ["u"%string]) k = Some (u k))
  /\
  st (variable_scope self ++ ["b"%string]) 0 = Some b.

End RealSession.

(** In the session, the row [i] of the input holds the real numbers
    [xr]. *)
Definition holds_row (st : @Session PartialReal)
    (x : Tensor (@Node PartialReal)) (n i : nat) (xr : nat -> R) : Prop :=
  forall k, k < n -> row (run st x) n i k = Some (xr k).

(** A session for the small flow, with [w = (1, 0)], [u = (0, 0)] and
    [b = -1], and the values it gives. *)
Definition example_session : @Session PartialReal :=
  session_of (variable_scope example_flow) [1; 0]%R [0; 0]%R (-1)%R.

Definition example_w : nat -> R := fun k => nth k [1; 0]%R 0%R.
Definition example_u : nat -> R := fun k => nth k [0; 0]%R 0%R.
Definition example_row : nat -> R := fun k => nth k [1; 2]%R 0%R.

(** A single vector, an empty batch, and the entries of [example_x]
    under another leading shape. *)
Definition example_vector : Tensor (@Node PartialReal) :=
  feed (mkTensor [2] [Some 1%R; Some 2%R]).

Definition example_empty : Tensor (@Node PartialReal) :=
  feed (mkTensor [0; 2] []).

Definition example_x_alt : Tensor (@Node PartialReal) :=
  feed (mkTensor [1; 2; 2] [Some 1%R; Some 2%R; Some 3%R; Some 4%R]).

(** Three layers from the factory, and the first of them built. *)
Definition example_layers
  : list (PlanarNormalizingFlow (F:=PartialReal) unit unit) :=
  match planar_normalizing_flows [] 3 example_kwargs None None with
  | Ok (SequentialFlow flows) => flows
  | _ => []
  end.

Definition example_layer (i : nat)
  : PlanarNormalizingFlow (F:=PartialReal) unit unit :=
  nth i example_layers example_flow0.

Definition example_layer0_built
  : PlanarNormalizingFlow (F:=PartialReal) unit unit :=
  match _build (example_layer 0) example_x0 with
  | Ok self => self
  | Raise _ => example_flow0
  end.

(** ** The definitions on small inputs *)

Example broadcast_shape_row_col : broadcast_shape [1; 2] [3; 1] = Some [3; 2].
Proof. reflexivity. Qed.

Example broadcast_shape_vector : broadcast_shape [3; 1] [1] = Some [3; 1].
Proof. reflexivity. Qed.

Example broadcast_shape_mismatch : broadcast_shape [2; 3] [2; 4] = None.
Proof. reflexivity. Qed.

Example unravel_2_3 : unravel [2; 3] 4 = [1; 1].
Proof. reflexivity. Qed.

Example bcast_index_of_row : bcast_index [1; 3] [1; 2] = 2.
Proof. reflexivity. Qed.

Example bcast_index_of_column : bcast_index [2; 1] [1; 2] = 1.
Proof. reflexivity. Qed.

Example validate_needs_two_dimensions :
  validate [Ellipsis; AnyDim; Dim 2] (mkTensor [2] [1; 2]) = Raise ShapeError.
Proof. reflexivity. Qed.

Example flatten_three_dimensions :
  flatten (mkTensor [2; 3; 4] (repeat 0 24)) 2
  = Ok (mkTensor [6; 4] (repeat 0 24), Some [2; 3], Some [2; 3]).
Proof. reflexivity. Qed.

Example unflatten_three_dimensions :
  unflatten (mkTensor [6; 4] (repeat 0 24)) (Some [2; 3]) (Some [2; 3])
  = Ok (mkTensor [2; 3; 4] (repeat 0 24)).
Proof. reflexivity. Qed.

Example format_index_12 : format_index 12 = "_12"%string.
Proof. reflexivity. Qed.

Example example_flow_contract :
  option_map (@_input_spec PartialReal) (_built example_flow)
  = Some [Ellipsis; AnyDim; Dim 2].
Proof. reflexivity. Qed.

Example example_output_shapes :
  match _transform example_flow example_x true true with
  | Ok (Some y, Some log_det) => Some (shape y, shape log_det)
  | _ => None
  end = Some ([2; 1; 2], [2; 1]).
Proof. reflexivity. Qed.

Example example_factory_scopes :
  match planar_normalizing_flows (F:=PartialReal) ["model"%string] 3
          example_kwargs None None with
  | Ok (SequentialFlow flows) => map (@variable_scope _ _ _) flows
  | _ => []
  end
  = [["model"; "planar_normalizing_flows"; "_0"];
     ["model"; "planar_normalizing_flows"; "_1"];
     ["model"; "planar_normalizing_flows"; "_2"]]%string.
Proof. reflexivity. Qed.

Lemma size_app (a b : list nat) : size (a ++ b) = size a * size b.
Proof.
  induction a as [|d a IH]; simpl.
  - lia.
  - rewrite IH. lia.
Qed.

Lemma size2 (m n : nat) : size [m; n] = m * n.
Proof. simpl. lia. Qed.

Lemma nth_map_seq {A} (g : nat -> A) (n k : nat) (d : A) :
  k < n -> nth k (map g (seq 0 n)) d = g k.
Proof.
  intros Hk.
  rewrite (nth_indep _ d (g 0)) by (rewrite length_map, length_seq; exact Hk).
  rewrite (map_nth g (seq 0 n) 0 k), seq_nth by exact Hk. reflexivity.
Qed.

Lemma unravel2 (m n i j : nat) :
  j < n -> unravel [m; n] (i * n + j) = [i; j].
Proof.
  intros Hj. cbn [unravel size fold_right].
  rewrite !Nat.mul_1_r, Nat.div_1_r.
  rewrite Nat.div_add_l by lia. rewrite (Nat.div_small j n) by lia.
  rewrite (Nat.add_comm (i * n)), Nat.Div0.mod_add, Nat.mod_small by lia.
  rewrite Nat.add_0_r. reflexivity.
Qed.

Lemma clamp_small (d i : nat) : i < d -> (if d =? 1 then 0 else i) = i.
Proof. intros Hi. destruct (Nat.eqb_spec d 1); lia. Qed.

Lemma bcast_index_matrix (a b i j : nat) :
  i < a -> j < b -> bcast_index [a; b] [i; j] = i * b + j.
Proof.
  intros Hi Hj. cbn. rewrite (clamp_small Hi), (clamp_small Hj). reflexivity.
Qed.

Lemma bcast_index_row (b i j : nat) :
  j < b -> bcast_index [1; b] [i; j] = 0 * b + j.
Proof. intros Hj. cbn. rewrite (clamp_small Hj). reflexivity. Qed.

Lemma bcast_index_col (a i j : nat) :
  i < a -> bcast_index [a; 1] [i; j] = i * 1 + 0.
Proof. intros Hi. cbn. rewrite (clamp_small Hi). reflexivity. Qed.

Lemma bdim_same (n : nat) : bdim n n = Some n.
Proof. unfold bdim. rewrite Nat.eqb_refl. reflexivity. Qed.

Lemma bdim_1_l (m : nat) : bdim 1 m = Some m.
Proof. unfold bdim. destruct (Nat.eqb_spec 1 m); [subst|]; reflexivity. Qed.

Lemma bdim_1_r (n : nat) : bdim n 1 = Some n.
Proof. unfold bdim. destruct (n =? 1); reflexivity. Qed.

Create Rewrite HintDb bshape.
#[local] Hint Rewrite bdim_same bdim_1_l bdim_1_r : bshape.

(** One step of a computation in [result]: the next operation is known to
    succeed ([H] says with what), so the rest runs on its value. *)
Ltac step H := rewrite H; cbn [bind].

Lemma fold_left_ext_in {A B} (f g : A -> B -> A) (l : list B) (a : A) :
  (forall acc x, In x l -> f acc x = g acc x) ->
  fold_left f l a = fold_left g l a.
Proof.
  revert a. induction l as [|x l IH]; intros a H; simpl.
  - reflexivity.
  - rewrite (H a x) by (left; reflexivity).
    apply IH. intros acc y Hy. apply H. right. exact Hy.
Qed.

Section KernelFacts.
Context {A : Type} {SA : ScalarOps A}.

Lemma dot_ext (k : nat) (f f' g g' : nat -> A) :
  (forall l, l < k -> f l = f' l) ->
  (forall l, l < k -> g l = g' l) ->
  dot k f g = dot k f' g'.
Proof.
  intros Hf Hg. unfold dot. apply fold_left_ext_in.
  intros acc l Hl. apply in_seq in Hl.
  rewrite Hf, Hg by lia. reflexivity.
Qed.

(** The general fact about an element-wise operation whose result is a
    matrix. *)
Lemma broadcast_op_matrix (f : A -> A -> A) (a b : Tensor A) (m n : nat) :
  broadcast_shape (shape a) (shape b) = Some [m; n] ->
  yields (broadcast_op f a b) m n
         (fun i j => f (entry a (bcast_index (shape a) [i; j]))
                       (entry b (bcast_index (shape b) [i; j]))).
Proof.
  intros Hs. unfold yields, broadcast_op. rewrite Hs.
  eexists. split; [reflexivity|]. split; [split|].
  - reflexivity.
  - intros i j Hi Hj. unfold entry at 1. cbn [data].
    rewrite nth_map_seq by (rewrite size2; nia).
    cbv zeta. rewrite unravel2 by exact Hj. reflexivity.
  - unfold full. cbn [data shape]. rewrite length_map, length_seq. reflexivity.
Qed.

Lemma yields_ext (r : result (Tensor A)) (m n : nat) (g g' : nat -> nat -> A) :
  yields r m n g ->
  (forall i j, i < m -> j < n -> g i j = g' i j) ->
  yields r m n g'.
Proof.
  intros (t & Hr & (Hs & He) & Hf) Hg.
  exists t. repeat split; auto.
  intros i j Hi Hj. rewrite He by assumption. apply Hg; assumption.
Qed.

(** Both operands are [m] by [n]. *)
Lemma op_same (f : A -> A -> A) (a b : Tensor A) m n ga gb :
  is_matrix a m n ga -> is_matrix b m n gb ->
  yields (broadcast_op f a b) m n (fun i j => f (ga i j) (gb i j)).
Proof.
  intros [Sa Ea] [Sb Eb].
  eapply yields_ext.
  - apply broadcast_op_matrix. rewrite Sa, Sb. unfold broadcast_shape. cbn.
    autorewrite with bshape. reflexivity.
  - intros i j Hi Hj. cbv beta. rewrite Sa, Sb.
    rewrite !bcast_index_matrix by assumption.
    rewrite Ea, Eb by assumption. reflexivity.
Qed.

(** A row [1, n] with a column [m, 1]. *)
Lemma op_row_col (f : A -> A -> A) (a b : Tensor A) m n ga gb :
  is_matrix a 1 n ga -> is_matrix b m 1 gb ->
  yields (broadcast_op f a b) m n (fun i j => f (ga 0 j) (gb i 0)).
Proof.
  intros [Sa Ea] [Sb Eb].
  eapply yields_ext.
  - apply broadcast_op_matrix. rewrite Sa, Sb. unfold broadcast_shape. cbn.
    autorewrite with bshape. reflexivity.
  - intros i j Hi Hj. cbv beta. rewrite Sa, Sb.
    rewrite bcast_index_row, bcast_index_col by assumption.
    rewrite Ea, Eb by lia. reflexivity.
Qed.

(** A column [m, 1] with a row [1, n]. *)
Lemma op_col_row (f : A -> A -> A) (a b : Tensor A) m n ga gb :
  is_matrix a m 1 ga -> is_matrix b 1 n gb ->
  yields (broadcast_op f a b) m n (fun i j => f (ga i 0) (gb 0 j)).
Proof.
  intros [Sa Ea] [Sb Eb].
  eapply yields_ext.
  - apply broadcast_op_matrix. rewrite Sa, Sb. unfold broadcast_shape. cbn.
    autorewrite with bshape. reflexivity.
  - intros i j Hi Hj. cbv beta. rewrite Sa, Sb.
    rewrite bcast_index_row, bcast_index_col by assumption.
    rewrite Ea, Eb by lia. reflexivity.
Qed.

(** A Python number on the left. *)
Lemma op_const_l (f : A -> A -> A) (z : Z) (b : Tensor A) m n gb :
  is_matrix b m n gb ->
  yields (broadcast_op f (constant z) b) m n
         (fun i j => f (sconst z) (gb i j)).
Proof.
  intros [Sb Eb].
  eapply yields_ext.
  - apply broadcast_op_matrix. rewrite Sb. reflexivity.
  - intros i j Hi Hj. cbv beta. rewrite Sb.
    rewrite bcast_index_matrix by assumption.
    rewrite Eb by assumption. reflexivity.
Qed.

(** A tensor of rank 0 on the right. *)
Lemma op_scalar_r (f : A -> A -> A) (a s : Tensor A) m n ga :
  is_matrix a m n ga -> shape s = [] ->
  yields (broadcast_op f a s) m n (fun i j => f (ga i j) (entry s 0)).
Proof.
  intros [Sa Ea] Ss.
  eapply yields_ext.
  - apply broadcast_op_matrix. rewrite Sa, Ss. reflexivity.
  - intros i j Hi Hj. cbv beta. rewrite Sa, Ss.
    rewrite bcast_index_matrix by assumption.
    rewrite Ea by assumption. reflexivity.
Qed.

(** A column [m, 1] with a vector of one entry. *)
Lemma op_col_vec1 (f : A -> A -> A) (a b : Tensor A) m ga :
  is_matrix a m 1 ga -> shape b = [1] ->
  yields (broadcast_op f a b) m 1 (fun i j => f (ga i 0) (entry b 0)).
Proof.
  intros [Sa Ea] Sb.
  eapply yields_ext.
  - apply broadcast_op_matrix. rewrite Sa, Sb. reflexivity.
  - intros i j Hi Hj. cbv beta. rewrite Sa, Sb.
    rewrite bcast_index_col by assumption.
    rewrite Ea by lia. reflexivity.
Qed.

Lemma matmul_tb_matrix (a b : Tensor A) m k p ga gb :
  is_matrix a m k ga -> is_matrix b p k gb ->
  yields (matmul_tb a b) m p (fun i j => dot k (ga i) (gb j)).
Proof.
  intros [Sa Ea] [Sb Eb]. unfold yields, matmul_tb.
  rewrite Sa, Sb, Nat.eqb_refl.
  eexists. split; [reflexivity|]. split; [split|].
  - reflexivity.
  - intros i j Hi Hj. unfold entry at 1. cbn [data].
    rewrite nth_map_seq by nia.
    rewrite Nat.div_add_l, (Nat.div_small j p), Nat.add_0_r by lia.
    rewrite (Nat.add_comm (i * p)), Nat.Div0.mod_add, Nat.mod_small by lia.
    apply dot_ext; intros l Hl; [apply Ea | apply Eb]; assumption.
  - unfold full. cbn [data shape]. rewrite length_map, length_seq, size2.
    reflexivity.
Qed.

Lemma unary_matrix (f : A -> A) (t : Tensor A) m n g :
  is_matrix t m n g -> full t ->
  is_matrix (unary f t) m n (fun i j => f (g i j)) /\ full (unary f t).
Proof.
  intros [St Et] Ft. unfold full in *. rewrite St, size2 in Ft.
  split; [split|].
  - exact St.
  - intros i j Hi Hj. unfold entry, unary. cbn [data].
    rewrite (nth_indep _ (sconst 0) (f (sconst 0)))
      by (rewrite length_map, Ft; nia).
    rewrite map_nth. fold (entry t (i * n + j)). rewrite Et by assumption.
    reflexivity.
  - unfold unary. cbn [data shape]. rewrite length_map, St, size2. exact Ft.
Qed.

End KernelFacts.

(** ** Facts about the helpers *)

Lemma skipn_app_length {A} (a b : list A) : skipn (length a) (a ++ b) = b.
Proof. induction a as [|x a IH]; simpl; auto. Qed.

Lemma firstn_app_length {A} (a b : list A) : firstn (length a) (a ++ b) = a.
Proof. induction a as [|x a IH]; simpl; [|rewrite IH]; reflexivity. Qed.

Section UtilsFacts.
Context {A : Type} {SA : ScalarOps A}.

Lemma validate_cases (spec : InputSpec) (x : Tensor A) :
  validate spec x = Ok x \/ validate spec x = Raise ShapeError.
Proof.
  unfold validate.
  destruct spec as [|[| | |k] ds];
    match goal with |- context [if ?c then _ else _] => destruct c end; auto.
Qed.

Lemma validate_trailing (d : DimSpec) (n : nat) (x : Tensor A) (bs : list nat) :
  d = AnyDim \/ d = KnownDim ->
  shape x = bs ++ [n] -> bs <> [] ->
  validate [Ellipsis; d; Dim n] x = Ok x /\
  validate [Ellipsis; d; KnownDim] x = Ok x.
Proof.
  intros Hd Hs Hbs.
  destruct (exists_last Hbs) as (front & b & ->).
  assert (Hr : rank x = length front + 2).
  { unfold rank. rewrite Hs, !length_app. simpl. lia. }
  unfold validate. cbn [length]. rewrite Hr.
  replace (length front + 2 - 2) with (length front) by lia.
  rewrite Hs, <- app_assoc, skipn_app_length.
  replace (2 <=? length front + 2) with true
    by (symmetry; apply Nat.leb_le; lia).
  cbn. rewrite Nat.eqb_refl.
  destruct Hd as [-> | ->]; cbn; split; reflexivity.
Qed.

Lemma validate_ok_inv (n : nat) (x x' : Tensor A) :
  validate [Ellipsis; AnyDim; Dim n] x = Ok x' ->
  x' = x /\ exists bs, bs <> [] /\ shape x = bs ++ [n].
Proof.
  unfold validate. cbn [length].
  destruct (2 <=? rank x) eqn:Hr; cbn [andb]; [|discriminate].
  apply Nat.leb_le in Hr.
  destruct (dims_match _ _) eqn:Hm; [|discriminate].
  intros H. injection H as <-. split; [reflexivity|].
  pose proof (firstn_skipn (rank x - 2) (shape x)) as Hfs.
  destruct (skipn (rank x - 2) (shape x)) as [|b [|n' [|c r]]];
    cbn in Hm; rewrite ?andb_false_r in Hm; try discriminate.
  rewrite andb_true_r in Hm. apply Nat.eqb_eq in Hm. subst n'.
  exists (firstn (rank x - 2) (shape x) ++ [b]). split.
  - intros E. apply app_eq_nil in E. destruct E; discriminate.
  - rewrite <- app_assoc. symmetry. exact Hfs.
Qed.

(** The input is flattened to a matrix with the same entries, and what
    [flatten] remembers lets [unflatten] restore the leading shape. *)
Lemma flatten_unflatten (x : Tensor A) (bs : list nat) (n : nat) :
  shape x = bs ++ [n] -> bs <> [] ->
  exists xf s1 s2,
    flatten x 2 = Ok (xf, s1, s2) /\
    shape xf = [size bs; n] /\ data xf = data x /\
    forall (t : Tensor A) rest,
      shape t = size bs :: rest ->
      exists t', unflatten t s1 s2 = Ok t' /\
                 shape t' = bs ++ rest /\ data t' = data t.
Proof.
  intros Hs Hbs.
  assert (Hr : rank x = length bs + 1).
  { unfold rank. rewrite Hs, length_app. reflexivity. }
  unfold flatten. change (2 <? 1) with false. cbv iota.
  destruct bs as [|b [|b' bs']]; [congruence| |].
  - (* the input is a matrix already *)
    replace (rank x <? 2) with false
      by (symmetry; apply Nat.ltb_ge; rewrite Hr; cbn; lia).
    replace (rank x =? 2) with true
      by (symmetry; apply Nat.eqb_eq; rewrite Hr; reflexivity).
    exists x, None, None. repeat split.
    + rewrite Hs. cbn. rewrite Nat.mul_1_r. reflexivity.
    + intros t rest Ht. exists t. repeat split.
      rewrite Ht. cbn. rewrite Nat.mul_1_r. reflexivity.
  - set (bs := b :: b' :: bs') in *.
    replace (rank x <? 2) with false
      by (symmetry; apply Nat.ltb_ge; rewrite Hr; cbn; lia).
    replace (rank x =? 2) with false
      by (symmetry; apply Nat.eqb_neq; rewrite Hr; cbn; lia).
    replace (rank x - (2 - 1)) with (length bs) by (rewrite Hr; lia).
    rewrite Hs, firstn_app_length, skipn_app_length.
    unfold reshape at 1. rewrite Hs, size_app.
    replace (size (size bs :: [n])) with (size bs * size [n]) by reflexivity.
    rewrite Nat.eqb_refl. cbn [bind].
    eexists _, _, _. split; [reflexivity|]. repeat split.
    intros t rest Ht. unfold unflatten, rank. rewrite Ht.
    cbn [length Nat.ltb Nat.leb tl]. unfold reshape.
    rewrite Ht, size_app.
    replace (size (size bs :: rest)) with (size bs * size rest) by reflexivity.
    rewrite Nat.eqb_refl. eexists. repeat split.
Qed.

End UtilsFacts.

(** ** Facts about the flow *)

Section FlowFacts.
Context {F : Type} {SF : ScalarOps F}.
Variables Initializer Regularizer : Type.

Lemma is_matrix_ext (A : Type) (SA : ScalarOps A) (t : Tensor A) m n g g' :
  is_matrix t m n g ->
  (forall i j, i < m -> j < n -> g i j = g' i j) ->
  is_matrix t m n g'.
Proof.
  intros [Hs He] Hg. split; [exact Hs|].
  intros i j Hi Hj. rewrite He by assumption. apply Hg; assumption.
Qed.

Lemma get_variable_row (scope : VarName) (name : string) (n : nat) :
  is_matrix (get_variable (F:=F) scope name [1; n]) 1 n
            (fun _ j => param scope name j) /\
  full (get_variable (F:=F) scope name [1; n]).
Proof.
  split; [split|].
  - reflexivity.
  - intros i j Hi Hj. unfold entry, get_variable. cbn [data].
    rewrite nth_map_seq by (rewrite size2; lia).
    replace (i * n + j) with j by lia. reflexivity.
  - unfold full, get_variable. cbn [data shape].
    rewrite length_map, length_seq. reflexivity.
Qed.

Lemma get_variable_one (scope : VarName) (name : string) :
  entry (get_variable (F:=F) scope name [1]) 0 = param scope name 0.
Proof. reflexivity. Qed.

Lemma sum_squares_variable (scope : VarName) (name : string) (n : nat) :
  entry (reduce_sum (unary ssquare (get_variable (F:=F) scope name [1; n]))) 0
  = sum_squares n (param scope name).
Proof.
  unfold entry, reduce_sum, unary, get_variable, sum_squares. cbn [data nth].
  rewrite map_map, size2, Nat.mul_1_l. reflexivity.
Qed.

(** [_build] succeeds on every input with at least two dimensions, and
    leaves the flow built for the last dimension of that input. *)
Lemma _build_spec (self : PlanarNormalizingFlow Initializer Regularizer)
    (x0 : Tensor Node) (bs : list nat) (n : nat) :
  shape x0 = bs ++ [n] -> bs <> [] ->
  exists self',
    _build self x0 = Ok self' /\
    variable_scope self' = variable_scope self /\
    kwargs self' = kwargs self /\
    built_for self' n.
Proof.
  intros Hs Hbs.
  destruct (validate_trailing n x0 (or_introl eq_refl) Hs Hbs) as [_ Hv].
  unfold _build, add, sub, mul, div. step Hv.
  rewrite Hs, last_last. cbv zeta.
  set (sc := variable_scope self).
  destruct (get_variable_row sc "w" n) as [Mw Fw].
  destruct (get_variable_row sc "u" n) as [Mu Fu].
  destruct (matmul_tb_matrix Mw Mu) as (wu & Ewu & Mwu & Fwu). step Ewu.
  destruct (unary_matrix ssoftplus Mwu Fwu) as [Msp _].
  destruct (op_const_l sadd (-1) Msp) as (t1 & E1 & M1 & _). step E1.
  destruct (op_same ssub M1 Mwu) as (t2 & E2 & M2 & _). step E2.
  destruct (op_col_row smul M2 Mw) as (t3 & E3 & M3 & _). step E3.
  destruct (op_scalar_r sdiv
              (reduce_sum (unary ssquare (get_variable sc "w" [1; n])))
              M3 eq_refl) as (t4 & E4 & M4 & _). step E4.
  destruct (op_same sadd Mu M4) as (u_hat & E5 & M5 & F5). step E5.
  eexists. split; [reflexivity|]. cbn [variable_scope kwargs].
  split; [reflexivity|]. split; [reflexivity|].
  exists u_hat. cbn [variable_scope _built]. fold sc.
  split; [reflexivity|]. split; [|exact F5].
  eapply is_matrix_ext; [exact M5|].
  intros i j Hi Hj. cbv beta. rewrite sum_squares_variable. reflexivity.
Qed.

(** Conversely, a flow that [_build] returns is built for the last
    dimension of the input it was given. *)
Lemma _build_inv (self self' : PlanarNormalizingFlow Initializer Regularizer)
    (x0 : Tensor Node) :
  _build self x0 = Ok self' ->
  variable_scope self' = variable_scope self /\
  kwargs self' = kwargs self /\
  exists bs n, bs <> [] /\ shape x0 = bs ++ [n] /\ built_for self' n.
Proof.
  intros Hb.
  assert (Hx : exists bs n, bs <> [] /\ shape x0 = bs ++ [n]).
  { unfold _build in Hb.
    destruct (validate_cases [Ellipsis; AnyDim; KnownDim] x0) as [Hv | Hv];
      [|rewrite Hv in Hb; discriminate].
    clear Hb. unfold validate in Hv. cbn [length] in Hv.
    destruct (2 <=? rank x0) eqn:Hr; cbn [andb] in Hv; [|discriminate].
    apply Nat.leb_le in Hr. unfold rank in Hr.
    destruct (exists_last (l := shape x0)) as (s & n & Hsn).
    { intros E. rewrite E in Hr. cbn in Hr. lia. }
    exists s, n. split; [|exact Hsn].
    intros ->. rewrite Hsn in Hr. cbn in Hr. lia. }
  destruct Hx as (bs & n & Hbs & Hs).
  destruct (_build_spec self x0 n Hs Hbs) as (self2 & E & Hsc & Hkw & Hbf).
  rewrite E in Hb. injection Hb as <-.
  split; [exact Hsc|]. split; [exact Hkw|].
  exists bs, n. auto.
Qed.

Lemma entry_same_data (A : Type) (SA : ScalarOps A) (t t' : Tensor A) k :
  data t' = data t -> entry t' k = entry t k.
Proof. intros E. unfold entry. rewrite E. reflexivity. Qed.

(** What [_transform] computes on a built flow, for every input whose
    last dimension is the one the flow was built for: both outputs
    exist, they do not depend on which of them is requested, and their
    entries are those of the formulas, at the level of the graph. *)
Lemma _transform_spec (self : PlanarNormalizingFlow Initializer Regularizer)
    (n : nat) (x : Tensor Node) (bs : list nat) :
  built_for self n -> shape x = bs ++ [n] -> bs <> [] ->
  exists y ld : Tensor Node,
    (forall cy cl : bool,
        _transform self x cy cl
        = Ok (if cy then Some y else None, if cl then Some ld else None)) /\
    (shape y = bs ++ [n] /\ length (data y) = size bs * n) /\
    (shape ld = bs /\ length (data ld) = size bs) /\
    (forall i j, i < size bs -> j < n ->
        entry y (i * n + j)
        = planar_y n (param (variable_scope self) "w")
                     (param (variable_scope self) "u")
                     (param (variable_scope self) "b" 0) (row x n i) j) /\
    (forall i, i < size bs ->
        entry ld i
        = planar_log_det n (param (variable_scope self) "w")
                           (param (variable_scope self) "u")
                           (param (variable_scope self) "b" 0) (row x n i)).
Proof.
  intros (u_hat & Hb & Mu & Fu) Hs Hbs.
  set (sc := variable_scope self) in *.
  destruct (validate_trailing n x (or_introl eq_refl) Hs Hbs) as [Hv _].
  destruct (flatten_unflatten x n Hs Hbs)
    as (xf & s1 & s2 & Efl & Sxf & Dxf & Hun).
  set (m := size bs) in *.
  assert (Mxf : is_matrix xf m n (fun i j => row x n i j)).
  { split; [exact Sxf|]. intros i j _ _. apply entry_same_data. exact Dxf. }
  destruct (get_variable_row sc "w" n) as [Mw Fw].
  (* wxb and its tanh *)
  destruct (matmul_tb_matrix Mxf Mw) as (xw & Exw & Mxw & _).
  destruct (op_col_vec1 sadd (get_variable sc "b" [1]) Mxw eq_refl)
    as (wxb & Ewxb & Mwxb & Fwxb).
  destruct (unary_matrix stanh Mwxb Fwxb) as [Mth Fth].
  (* y *)
  destruct (op_row_col smul Mu Mth) as (t & Et & Mt & _).
  destruct (op_same sadd Mxf Mt) as (yf & Eyf & [Syf Myf] & Fyf).
  destruct (Hun yf [n] Syf) as (y & Ey & Sy & Dy).
  (* log_det *)
  destruct (unary_matrix ssquare Mth Fth) as [Msq _].
  destruct (op_const_l ssub 1 Msq) as (grad & Egrad & Mgrad & _).
  destruct (op_col_row smul Mgrad Mw) as (phi & Ephi & Mphi & _).
  destruct (matmul_tb_matrix Mphi Mu) as (u_phi & Euphi & Muphi & _).
  destruct (op_const_l sadd 1 Muphi) as (det & Edet & Mdet & Fdet).
  destruct (unary_matrix sabs Mdet Fdet) as [Mabs Fabs].
  destruct (unary_matrix slog Mabs Fabs) as [[Slog Mlog] Flog].
  set (ldm := unary slog (unary sabs det)) in *.
  assert (Esq : squeeze_last ldm = Ok (mkTensor [m] (data ldm))).
  { unfold squeeze_last. rewrite Slog. reflexivity. }
  destruct (Hun (mkTensor [m] (data ldm)) [] eq_refl) as (ld & Eld & Sld & Dld).
  rewrite app_nil_r in Sld. cbn [data] in Dld.
  exists y, ld. split; [|split; [|split; [|split]]].
  - intros cy cl. unfold _transform, add, sub, mul.
    rewrite Hb. cbn [_input_spec _w _b _u_hat].
    step Hv. step Efl. step Exw. step Ewxb.
    destruct cy, cl; cbn [bind];
      try (step Et; step Eyf; step Ey);
      try (step Egrad; step Ephi; step Euphi; step Edet; fold ldm;
           step Esq; step Eld);
      reflexivity.
  - split; [exact Sy|]. rewrite Dy. unfold full in Fyf.
    rewrite Fyf, Syf, size2. reflexivity.
  - split; [exact Sld|]. rewrite Dld. unfold full in Flog.
    fold ldm in Flog. rewrite Flog, Slog, size2. lia.
  - intros i j Hi Hj. rewrite (@entry_same_data _ _ yf y _ Dy).
    rewrite Myf by assumption. reflexivity.
  - intros i Hi. rewrite (@entry_same_data _ _ ldm ld _ Dld).
    replace i with (i * 1 + 0) at 1 by lia.
    rewrite Mlog by lia. reflexivity.
Qed.

End FlowFacts.

(** ** Running the graph: nodes evaluate entry by entry *)

Section RunFacts.
Context {F : Type} {SF : ScalarOps F}.

Lemma entry_run (st : Session) (t : Tensor (@Node F)) (k : nat) :
  entry (run st t) k = entry t k st.
Proof.
  unfold entry, run. cbn [data].
  exact (map_nth (fun g : Node => g st) (data t) (sconst 0) k).
Qed.

Lemma row_run (st : Session) (t : Tensor (@Node F)) (n i k : nat) :
  row (run st t) n i k = row t n i k st.
Proof. apply entry_run. Qed.

Lemma fold_dot_run (st : Session) (f g : nat -> @Node F) (l : list nat)
    (acc : Node) :
  fold_left (fun a k => sadd a (smul (f k) (g k))) l acc st
  = fold_left (fun a k => sadd a (smul (f k st) (g k st))) l (acc st).
Proof.
  revert acc. induction l as [|k l IH]; intros acc; simpl.
  - reflexivity.
  - rewrite IH. reflexivity.
Qed.

Lemma dot_run (st : Session) (n : nat) (f g : nat -> @Node F) :
  dot n f g st = dot n (fun k => f k st) (fun k => g k st).
Proof. unfold dot. rewrite fold_dot_run. reflexivity. Qed.

Lemma fold_sum_run (st : Session) (l : list (@Node F)) (acc : Node) :
  fold_left sadd l acc st
  = fold_left sadd (map (fun g => g st) l) (acc st).
Proof.
  revert acc. induction l as [|g l IH]; intros acc; simpl.
  - reflexivity.
  - rewrite IH. reflexivity.
Qed.

Lemma sum_squares_run (st : Session) (n : nat) (w : nat -> @Node F) :
  sum_squares n w st = sum_squares n (fun k => w k st).
Proof.
  unfold sum_squares. rewrite fold_sum_run, map_map. reflexivity.
Qed.

Lemma planar_u_hat_run (st : Session) (n : nat) (w u : nat -> @Node F) j :
  planar_u_hat n w u j st
  = planar_u_hat n (fun k => w k st) (fun k => u k st) j.
Proof.
  unfold planar_u_hat. cbn [sadd sdiv smul ssub ssoftplus sconst NodeOps].
  rewrite dot_run, sum_squares_run. reflexivity.
Qed.

Lemma planar_y_run (st : Session) (n : nat) (w u : nat -> @Node F)
    (b : Node) (x : nat -> Node) j :
  planar_y n w u b x j st
  = planar_y n (fun k => w k st) (fun k => u k st) (b st)
             (fun k => x k st) j.
Proof.
  unfold planar_y. cbn [sadd smul stanh NodeOps].
  rewrite planar_u_hat_run, dot_run. reflexivity.
Qed.

Lemma planar_log_det_run (st : Session) (n : nat) (w u : nat -> @Node F)
    (b : Node) (x : nat -> Node) :
  planar_log_det n w u b x st
  = planar_log_det n (fun k => w k st) (fun k => u k st) (b st)
                   (fun k => x k st).
Proof.
  unfold planar_log_det, planar_det_jac.
  cbn [sadd ssub smul stanh ssquare slog sabs sconst NodeOps].
  rewrite !dot_run. apply f_equal, f_equal, f_equal.
  apply dot_ext; intros l _.
  - reflexivity.
  - apply planar_u_hat_run.
Qed.

Lemma sum_squares_ext (n : nat) (w w' : nat -> F) :
  (forall k, k < n -> w k = w' k) -> sum_squares n w = sum_squares n w'.
Proof.
  intros H. unfold sum_squares. f_equal.
  apply map_ext_in. intros k Hk. apply in_seq in Hk. rewrite H by lia.
  reflexivity.
Qed.

Lemma planar_u_hat_ext (n : nat) (w w' u u' : nat -> F) (j : nat) :
  (forall k, k < n -> w k = w' k) ->
  (forall k, k < n -> u k = u' k) ->
  j < n ->
  planar_u_hat n w u j = planar_u_hat n w' u' j.
Proof.
  intros Hw Hu Hj. unfold planar_u_hat.
  rewrite (@dot_ext _ _ n w w' u u' Hw Hu), (@sum_squares_ext n w w' Hw).
  rewrite Hw, Hu by exact Hj. reflexivity.
Qed.

Lemma planar_y_ext (n : nat) (w u : nat -> F) (b : F) (x x' : nat -> F) j :
  (forall k, k < n -> x k = x' k) -> j < n ->
  planar_y n w u b x j = planar_y n w u b x' j.
Proof.
  intros Hx Hj. unfold planar_y.
  rewrite (@dot_ext _ _ n x x' w w Hx (fun _ _ => eq_refl)), Hx by exact Hj.
  reflexivity.
Qed.

Lemma planar_det_jac_ext (n : nat) (w w' u u' : nat -> F) (b : F)
    (x x' : nat -> F) :
  (forall k, k < n -> w k = w' k) ->
  (forall k, k < n -> u k = u' k) ->
  (forall k, k < n -> x k = x' k) ->
  planar_det_jac n w u b x = planar_det_jac n w' u' b x'.
Proof.
  intros Hw Hu Hx. unfold planar_det_jac.
  rewrite (@dot_ext _ _ n x x' w w' Hx Hw). f_equal.
  apply dot_ext; intros k Hk.
  - rewrite Hw by exact Hk. reflexivity.
  - apply planar_u_hat_ext; assumption.
Qed.

Lemma planar_log_det_ext (n : nat) (w w' u u' : nat -> F) (b : F)
    (x x' : nat -> F) :
  (forall k, k < n -> w k = w' k) ->
  (forall k, k < n -> u k = u' k) ->
  (forall k, k < n -> x k = x' k) ->
  planar_log_det n w u b x = planar_log_det n w' u' b x'.
Proof.
  intros Hw Hu Hx. unfold planar_log_det.
  rewrite (planar_det_jac_ext w w' u u' b x x' Hw Hu Hx). reflexivity.
Qed.

End RunFacts.

(** ** The forward call of a built flow *)

Section Forward.
Context {F : Type} {SF : ScalarOps F}.
Variables Initializer Regularizer : Type.

Lemma built_of_build (self0 self : PlanarNormalizingFlow Initializer Regularizer)
    (x0 : Tensor Node) :
  _build self0 x0 = Ok self ->
  built_for self (last (shape x0) 0) /\
  variable_scope self = variable_scope self0.
Proof.
  intros Hb. destruct (_build_inv _ _ Hb) as (Hsc & _ & bs & n & _ & Hs & Hbf).
  rewrite Hs, last_last. auto.
Qed.

Lemma transform_built (self : PlanarNormalizingFlow Initializer Regularizer)
    (n : nat) (x : Tensor Node) (cy cl : bool) :
  built_for self n ->
  transform self x cy cl
  = if negb cy && negb cl then Raise InvalidArgumentError
    else out <- _transform self x cy cl ;; Ok (self, out).
Proof.
  intros (u_hat & Hb & _). unfold transform, build. rewrite Hb. reflexivity.
Qed.

(** C1.  On a built flow, [_transform] with [compute_y = true] on an
    input whose last dimension is [n_units], and so the forward call,
    returns a [y] of the shape of [x] whose value, in every session, is
    [x + u_hat * tanh(w.x + b)] row by row, for the [w], [b], [u] the
    session holds and the [u_hat] derived from that [w] and [u]. *)
Theorem forward_y_formula
    (self0 self : PlanarNormalizingFlow Initializer Regularizer)
    (x0 x : Tensor Node) (bs : list nat) (compute_log_det : bool) :
  _build self0 x0 = Ok self ->
  shape x = bs ++ [last (shape x0) 0] ->
  bs <> [] ->
  exists y log_det,
    _transform self x true compute_log_det = Ok (Some y, log_det) /\
    transform self x true compute_log_det = Ok (self, (Some y, log_det)) /\
    shape y = shape x /\
    forall (st : Session) (i j : nat),
      i < size bs -> j < last (shape x0) 0 ->
      entry (run st y) (i * last (shape x0) 0 + j)
      = planar_y (last (shape x0) 0)
                 (st (variable_scope self ++ ["w"%string]))
                 (st (variable_scope self ++ ["u"%string]))
                 (st (variable_scope self ++ ["b"%string]) 0)
                 (row (run st x) (last (shape x0) 0) i) j.
Proof.
  intros Hb Hs Hbs.
  destruct (built_of_build self0 x0 Hb) as [Hbf _].
  set (n := last (shape x0) 0) in *.
  destruct (_transform_spec x Hbf Hs Hbs) as (y & ld & Ht & [Sy _] & _ & Ey & _).
  exists y, (if compute_log_det then Some ld else None).
  split; [|split; [|split]].
  - apply (Ht true compute_log_det).
  - rewrite (transform_built x true compute_log_det Hbf).
    cbn [negb andb]. rewrite Ht. reflexivity.
  - rewrite Sy, Hs. reflexivity.
  - intros st i j Hi Hj.
    rewrite entry_run, Ey, planar_y_run by assumption.
    apply planar_y_ext; [|exact Hj].
    intros k _. symmetry. apply row_run.
Qed.

(** C2.  On a built flow, [_transform] with [compute_log_det = true], and
    so the forward call, returns a [log_det] whose shape is the shape of
    [x] without its last dimension and whose value, in every session, is
    for each row [log |1 + ((1 - tanh^2(w.x + b)) * w) . u_hat|]: the
    absolute value is taken before the logarithm. *)
Theorem forward_log_det_formula
    (self0 self : PlanarNormalizingFlow Initializer Regularizer)
    (x0 x : Tensor Node) (bs : list nat) (compute_y : bool) :
  _build self0 x0 = Ok self ->
  shape x = bs ++ [last (shape x0) 0] ->
  bs <> [] ->
  exists y log_det,
    _transform self x compute_y true = Ok (y, Some log_det) /\
    transform self x compute_y true = Ok (self, (y, Some log_det)) /\
    shape log_det = bs /\
    forall (st : Session) (i : nat),
      i < size bs ->
      entry (run st log_det) i
      = planar_log_det (last (shape x0) 0)
                       (st (variable_scope self ++ ["w"%string]))
                       (st (variable_scope self ++ ["u"%string]))
                       (st (variable_scope self ++ ["b"%string]) 0)
                       (row (run st x) (last (shape x0) 0) i).
Proof.
  intros Hb Hs Hbs.
  destruct (built_of_build self0 x0 Hb) as [Hbf _].
  set (n := last (shape x0) 0) in *.
  destruct (_transform_spec x Hbf Hs Hbs) as (y & ld & Ht & _ & [Sl _] & _ & El).
  exists (if compute_y then Some y else None), ld.
  split; [|split; [|split]].
  - apply (Ht compute_y true).
  - rewrite (transform_built x compute_y true Hbf).
    rewrite andb_false_r, Ht. reflexivity.
  - exact Sl.
  - intros st i Hi.
    rewrite entry_run, El, planar_log_det_run by assumption.
    unfold planar_log_det, planar_det_jac.
    rewrite (@dot_ext _ _ n (fun k => row x n i k st) (row (run st x) n i)
               (fun k => param (variable_scope self) "w" k st)
               (st (variable_scope self ++ ["w"%string])))
      by (intros; symmetry; try apply row_run; reflexivity).
    reflexivity.
Qed.

(** C10.  On a built flow and a valid input, the two switches only
    select which outputs are returned: there are a [y] and a [log_det]
    such that every forward call returns [y] exactly when [compute_y] is
    set and [log_det] exactly when [compute_log_det] is set, [None]
    otherwise. *)
Theorem compute_flags_independent
    (self0 self : PlanarNormalizingFlow Initializer Regularizer)
    (x0 x : Tensor Node) (bs : list nat) :
  _build self0 x0 = Ok self ->
  shape x = bs ++ [last (shape x0) 0] ->
  bs <> [] ->
  exists y log_det,
    (forall compute_y compute_log_det : bool,
        _transform self x compute_y compute_log_det
        = Ok (if compute_y then Some y else None,
              if compute_log_det then Some log_det else None)) /\
    transform self x true true = Ok (self, (Some y, Some log_det)) /\
    transform self x true false = Ok (self, (Some y, None)) /\
    transform self x false true = Ok (self, (None, Some log_det)).
Proof.
  intros Hb Hs Hbs.
  destruct (built_of_build self0 x0 Hb) as [Hbf _].
  destruct (_transform_spec x Hbf Hs Hbs) as (y & ld & Ht & _).
  exists y, ld. split; [exact Ht|].
  rewrite !(transform_built x _ _ Hbf). cbn [negb andb].
  rewrite !Ht. auto.
Qed.

Lemma assign_same (st : @Session F) (v : VarName) (k : nat) (val : F)
    (k' : nat) :
  assign st v k val v k' = if k =? k' then val else st v k'.
Proof.
  unfold assign. destruct (list_eq_dec string_dec v v); [reflexivity|congruence].
Qed.

Lemma assign_other (st : @Session F) (v v' : VarName) (k : nat) (val : F)
    (k' : nat) :
  v <> v' -> assign st v k val v' k' = st v' k'.
Proof.
  intros Hv. unfold assign.
  destruct (list_eq_dec string_dec v v'); [congruence|reflexivity].
Qed.

Lemma u_hat_entry (self : PlanarNormalizingFlow Initializer Regularizer)
    (n : nat) (attrs : Built) (st : Session) (j : nat) :
  built_for self n -> _built self = Some attrs -> j < n ->
  entry (run st (_u_hat attrs)) j
  = planar_u_hat n (st (variable_scope self ++ ["w"%string]))
                   (st (variable_scope self ++ ["u"%string])) j.
Proof.
  intros (u_hat & Hb & [_ Mu] & _) Ha Hj.
  rewrite Hb in Ha. injection Ha as <-. cbn [_u_hat].
  rewrite entry_run. replace j with (0 * n + j) at 1 by lia.
  rewrite Mu by lia. apply planar_u_hat_run.
Qed.

(** C4.  The [u_hat] of a built flow is a node of the graph: its value in
    a session is the correction formula applied to the [w] and [u] the
    session holds at that time, it depends on nothing else, an assignment
    to [w] or [u] shows in the next run, and the [y] of a forward call,
    run in a session, uses the [u_hat] of that session. *)
Theorem u_hat_follows_parameters
    (self0 self : PlanarNormalizingFlow Initializer Regularizer)
    (x0 : Tensor Node) (attrs : Built) :
  _build self0 x0 = Ok self ->
  _built self = Some attrs ->
  let n := last (shape x0) 0 in
  let wn := variable_scope self ++ ["w"%string] in
  let un := variable_scope self ++ ["u"%string] in
  let bn := variable_scope self ++ ["b"%string] in
  (forall st j, j < n ->
      entry (run st (_u_hat attrs)) j = planar_u_hat n (st wn) (st un) j) /\
  (forall st st' : Session,
      (forall k, k < n -> st wn k = st' wn k) ->
      (forall k, k < n -> st un k = st' un k) ->
      forall j, j < n ->
        entry (run st (_u_hat attrs)) j = entry (run st' (_u_hat attrs)) j) /\
  (forall st k val j, j < n ->
      entry (run (assign st wn k val) (_u_hat attrs)) j
      = planar_u_hat n (fun k' => if k =? k' then val else st wn k') (st un) j
      /\
      entry (run (assign st un k val) (_u_hat attrs)) j
      = planar_u_hat n (st wn) (fun k' => if k =? k' then val else st un k') j)
  /\
  (forall x bs, shape x = bs ++ [n] -> bs <> [] ->
      exists y, _transform self x true false = Ok (Some y, None) /\
        forall st i j, i < size bs -> j < n ->
          entry (run st y) (i * n + j)
          = sadd (entry (run st x) (i * n + j))
                 (smul (entry (run st (_u_hat attrs)) j)
                       (stanh (sadd (dot n (row (run st x) n i) (st wn))
                                    (st bn 0))))).
Proof.
  intros Hb Ha n wn un bn.
  destruct (built_of_build self0 x0 Hb) as [Hbf _]. fold n in Hbf.
  assert (Hne : wn <> un).
  { unfold wn, un. intros E. apply app_inv_head in E. discriminate. }
  split; [|split; [|split]].
  - intros st j Hj. apply (u_hat_entry st Hbf Ha Hj).
  - intros st st' Hw Hu j Hj.
    rewrite !(u_hat_entry _ Hbf Ha Hj).
    apply planar_u_hat_ext; assumption.
  - intros st k val j Hj. rewrite !(u_hat_entry _ Hbf Ha Hj). fold wn un.
    split; apply planar_u_hat_ext; try exact Hj; intros k' _.
    + apply assign_same.
    + apply assign_other. exact Hne.
    + apply assign_other. congruence.
    + apply assign_same.
  - intros x bs Hs Hbs.
    destruct (_transform_spec x Hbf Hs Hbs) as (y & ld & Ht & _ & _ & Ey & _).
    exists y. split; [apply (Ht true false)|].
    intros st i j Hi Hj.
    rewrite (u_hat_entry st Hbf Ha Hj).
    rewrite entry_run, Ey, planar_y_run by assumption.
    fold wn un bn.
    rewrite (planar_y_ext (st wn) (st un) (st bn 0)
               (fun k => row x n i k st) (row (run st x) n i))
      by (intros; try (symmetry; apply row_run); assumption).
    reflexivity.
Qed.

Lemma reshape_same_data (A : Type) (t t' : Tensor A) (s : list nat) :
  shape t' = s -> data t' = data t -> size s = size (shape t) ->
  reshape t s = Ok t'.
Proof.
  intros Hs Hd Hz. unfold reshape. rewrite Hz, Nat.eqb_refl.
  destruct t' as [s' d']. cbn in Hs, Hd. subst. reflexivity.
Qed.

(** C5.  On a built flow, [_transform] (and so the forward call) on an
    input of shape [[B1; B2; n_units]] returns the outputs it returns on
    the reshape of that input to [[B1 * B2; n_units]], reshaped back to
    [[B1; B2; n_units]] for [y] and to [[B1; B2]] for [log_det]: the same
    nodes, hence the same values in every session. *)
Theorem batch_shape_invariance
    (self0 self : PlanarNormalizingFlow Initializer Regularizer)
    (x0 x : Tensor Node) (B1 B2 : nat) :
  _build self0 x0 = Ok self ->
  shape x = [B1; B2; last (shape x0) 0] ->
  exists x2 y log_det y2 log_det2,
    reshape x [B1 * B2; last (shape x0) 0] = Ok x2 /\
    _transform self x true true = Ok (Some y, Some log_det) /\
    _transform self x2 true true = Ok (Some y2, Some log_det2) /\
    transform self x true true = Ok (self, (Some y, Some log_det)) /\
    transform self x2 true true = Ok (self, (Some y2, Some log_det2)) /\
    reshape y2 [B1; B2; last (shape x0) 0] = Ok y /\
    reshape log_det2 [B1; B2] = Ok log_det.
Proof.
  intros Hb Hs.
  destruct (built_of_build self0 x0 Hb) as [Hbf _].
  set (n := last (shape x0) 0) in *.
  set (x2 := mkTensor [B1 * B2; n] (data x)).
  assert (Hs1 : shape x = [B1; B2] ++ [n]) by exact Hs.
  assert (Hs2 : shape x2 = [B1 * B2] ++ [n]) by reflexivity.
  destruct (_transform_spec x Hbf Hs1 ltac:(discriminate))
    as (y & ld & Ht & [Sy Ly] & [Sl Ll] & Ey & El).
  destruct (_transform_spec x2 Hbf Hs2 ltac:(discriminate))
    as (y2 & ld2 & Ht2 & [Sy2 Ly2] & [Sl2 Ll2] & Ey2 & El2).
  assert (Hm : size [B1; B2] = size [B1 * B2]) by (cbn; lia).
  rewrite Hm in *. set (m := size [B1 * B2]) in *.
  assert (Dy : data y = data y2).
  { apply (nth_ext _ _ (sconst 0) (sconst 0)); [congruence|].
    intros q Hq. rewrite Ly in Hq.
    assert (Hn : n <> 0) by (intros E; rewrite E in Hq; lia).
    pose proof (Nat.div_mod_eq q n) as Hdm.
    pose proof (Nat.mod_upper_bound q n Hn) as Hj.
    assert (Hi : q / n < m) by (apply Nat.Div0.div_lt_upper_bound; lia).
    replace q with (q / n * n + q mod n) by lia.
    exact (eq_trans (Ey _ _ Hi Hj) (eq_sym (Ey2 _ _ Hi Hj))). }
  assert (Dl : data ld = data ld2).
  { apply (nth_ext _ _ (sconst 0) (sconst 0)); [congruence|].
    intros q Hq. rewrite Ll in Hq.
    exact (eq_trans (El _ Hq) (eq_sym (El2 _ Hq))). }
  exists x2, y, ld, y2, ld2. repeat apply conj.
  - apply reshape_same_data; [reflexivity|reflexivity|].
    rewrite Hs. cbn. lia.
  - apply (Ht true true).
  - apply (Ht2 true true).
  - rewrite (transform_built x true true Hbf). cbn [negb andb].
    rewrite Ht. reflexivity.
  - rewrite (transform_built x2 true true Hbf). cbn [negb andb].
    rewrite Ht2. reflexivity.
  - apply reshape_same_data; [exact Sy|exact Dy|].
    rewrite Sy2. cbn. lia.
  - apply reshape_same_data; [exact Sl|exact Dl|].
    rewrite Sl2. cbn. lia.
Qed.

End Forward.

(** ** The contract of the calls: shapes, switches, inversion *)

Section Contract.
Context {F : Type} {SF : ScalarOps F}.
Variables Initializer Regularizer : Type.

Lemma _transform_validates
    (self : PlanarNormalizingFlow (F:=F) Initializer Regularizer) (n : nat)
    (x : Tensor (@Node F)) (cy cl : bool) :
  built_for self n ->
  (validate [Ellipsis; AnyDim; Dim n] x = Raise ShapeError /\
   _transform self x cy cl = Raise ShapeError) \/
  (exists bs, bs <> [] /\ shape x = bs ++ [n]).
Proof.
  intros (u_hat & Hb & _).
  destruct (validate_cases [Ellipsis; AnyDim; Dim n] x) as [Hv | Hv].
  - right. apply (validate_ok_inv n x Hv).
  - left. split; [exact Hv|].
    unfold _transform. rewrite Hb. cbn [_input_spec]. rewrite Hv. reflexivity.
Qed.

(** C6.  The first forward call of a flow fixes [n_units] to the last
    dimension of its input.  From then on [_transform] raises
    [ShapeError] on an input whose last dimension is another one, and so
    does every forward call that requests an output; a call that returns
    was given an input whose last dimension is [n_units], and the forward
    call leaves the flow as it was. *)
Theorem trailing_dimension_fixed
    (self0 self : PlanarNormalizingFlow (F:=F) Initializer Regularizer)
    (x0 x : Tensor (@Node F)) (cy0 cl0 cy cl : bool)
    (out0 : option (Tensor (@Node F)) * option (Tensor (@Node F))) :
  _built self0 = None ->
  transform self0 x0 cy0 cl0 = Ok (self, out0) ->
  (forall s d, shape x = s ++ [d] -> d <> last (shape x0) 0 ->
      _transform self x cy cl = Raise ShapeError /\
      (cy || cl = true -> transform self x cy cl = Raise ShapeError)) /\
  (forall out, _transform self x cy cl = Ok out ->
      exists bs, shape x = bs ++ [last (shape x0) 0]) /\
  (forall self' out, transform self x cy cl = Ok (self', out) ->
      self' = self /\ exists bs, shape x = bs ++ [last (shape x0) 0]).
Proof.
  intros Hnb H0.
  assert (Hbf : built_for self (last (shape x0) 0)).
  { unfold transform in H0.
    destruct (negb cy0 && negb cl0); [discriminate|].
    unfold build in H0. rewrite Hnb in H0.
    destruct (_build self0 x0) as [self1|e] eqn:Hb; [|discriminate].
    cbn [bind] in H0.
    destruct (_transform self1 x0 cy0 cl0); [|discriminate].
    cbn [bind] in H0. injection H0 as <- _.
    apply (built_of_build self0 x0 Hb). }
  set (n := last (shape x0) 0) in *.
  rewrite (transform_built x cy cl Hbf).
  destruct (_transform_validates x cy cl Hbf) as [[_ Hr] | (bs & _ & Hs)].
  - rewrite Hr. split; [|split].
    + intros s d _ _. split; [reflexivity|].
      intros Hf. destruct cy, cl; try reflexivity. discriminate.
    + discriminate.
    + intros self' out Ho. destruct (negb cy && negb cl); discriminate.
  - split; [|split].
    + intros s d Hsd Hd. rewrite Hs in Hsd.
      apply app_inj_tail in Hsd. destruct Hsd as [_ E]. congruence.
    + intros out _. exists bs. exact Hs.
    + intros self' out Ho.
      destruct (negb cy && negb cl); [discriminate|].
      destruct (_transform self x cy cl); [|discriminate].
      cbn [bind] in Ho. injection Ho as <- _.
      split; [reflexivity|]. exists bs. exact Hs.
Qed.

(** C8.  A planar flow declares that it is not explicitly invertible,
    and its inverse call raises [UnsupportedOperationError], whatever the
    input and the switches. *)
Theorem inverse_unsupported
    (self : PlanarNormalizingFlow (F:=F) Initializer Regularizer)
    (y : Tensor (@Node F)) (compute_x compute_log_det : bool) :
  explicitly_invertible self = false /\
  inverse_transform self y compute_x compute_log_det
  = Raise UnsupportedOperationError.
Proof. split; reflexivity. Qed.

(** C9.  A forward call that requests neither [y] nor [log_det] raises
    [InvalidArgumentError], on every flow and every input; a forward call
    that returns had at least one of the two switches set. *)
Theorem no_output_requested
    (self : PlanarNormalizingFlow (F:=F) Initializer Regularizer)
    (x : Tensor (@Node F)) :
  transform self x false false = Raise InvalidArgumentError /\
  forall compute_y compute_log_det r,
    transform self x compute_y compute_log_det = Ok r ->
    compute_y || compute_log_det = true.
Proof.
  split; [reflexivity|].
  intros [|] [|] r H; try reflexivity. discriminate.
Qed.

End Contract.

(** ** The factory *)

Lemma format_index_inj (i j : nat) : format_index i = format_index j -> i = j.
Proof.
  unfold format_index. intros H. cbn in H. injection H as H.
  apply (f_equal NilEmpty.uint_of_string) in H.
  rewrite !NilEmpty.usu in H. injection H as H.
  apply DecimalNat.Unsigned.to_uint_inj. exact H.
Qed.

Section Factory.
Context {F : Type} {SF : ScalarOps F}.
Variables Initializer Regularizer : Type.

(** The flow the factory makes for the layer [i], in the scope [inner]. *)
Lemma layer_scope (inner : VarName) (kw : FlowKwargs Initializer Regularizer)
    (i : nat) :
  variable_scope (__init__ (F:=F) inner kw (Some (format_index i)) None)
  = inner ++ [format_index i].
Proof. reflexivity. Qed.

Lemma in_variable_names
    (self : PlanarNormalizingFlow (F:=F) Initializer Regularizer)
    (v : VarName) :
  In v (variable_names self) ->
  exists leaf, v = variable_scope self ++ [leaf].
Proof.
  unfold variable_names. cbn [In].
  intros [<- | [<- | [<- | []]]]; eexists; reflexivity.
Qed.

Lemma NoDup_variable_names
    (self : PlanarNormalizingFlow (F:=F) Initializer Regularizer) :
  NoDup (variable_names self).
Proof.
  unfold variable_names.
  repeat constructor; cbn [In]; intros H;
    repeat (destruct H as [H | H]; [apply app_inv_head in H; discriminate|]);
    exact H.
Qed.

Lemma NoDup_layers (inner : VarName) (kw : FlowKwargs Initializer Regularizer)
    (l : list nat) :
  NoDup l ->
  NoDup (concat (map (@variable_names F Initializer Regularizer)
                     (map (fun i => __init__ inner kw (Some (format_index i)) None)
                          l))).
Proof.
  induction 1 as [|i l Hi Hl IH]; cbn [map concat]; [constructor|].
  apply NoDup_app; [apply NoDup_variable_names|exact IH|].
  intros v Hv Hin.
  apply in_variable_names in Hv. destruct Hv as (leaf & ->).
  apply in_concat in Hin. destruct Hin as (names & Hn & Hv).
  rewrite map_map in Hn. apply in_map_iff in Hn.
  destruct Hn as (j & <- & Hj).
  apply in_variable_names in Hv. destruct Hv as (leaf' & E).
  rewrite !layer_scope, <- !app_assoc in E.
  apply app_inv_head in E.
  apply (f_equal (hd EmptyString)) in E. cbn [hd app] in E.
  apply format_index_inj in E. subst j. contradiction.
Qed.

(** C7.  The factory refuses an [n_layers] that is not positive with
    [InvalidArgumentError]; for [n_layers = 1] it returns one planar flow
    made from the arguments; for a larger [n_layers] it returns a
    [SequentialFlow] of exactly [n_layers] planar flows, not yet built,
    all with the given initializers, regularizers and [trainable], and no
    two of their variables have the same name. *)
Theorem factory_contract (ambient : VarName) (n_layers : Z)
    (kw : FlowKwargs Initializer Regularizer) (name scope : option string) :
  ((n_layers <= 0)%Z ->
     planar_normalizing_flows (F:=F) ambient n_layers kw name scope
     = Raise InvalidArgumentError) /\
  (n_layers = 1%Z ->
     planar_normalizing_flows (F:=F) ambient n_layers kw name scope
     = Ok (Planar (__init__ ambient kw name scope))) /\
  ((1 < n_layers)%Z ->
     exists flows,
       planar_normalizing_flows (F:=F) ambient n_layers kw name scope
       = Ok (SequentialFlow flows) /\
       length flows = Z.to_nat n_layers /\
       Forall (fun f => kwargs f = kw /\ _built f = None) flows /\
       NoDup (concat (map (@variable_names F Initializer Regularizer) flows))).
Proof.
  unfold planar_normalizing_flows, validate_positive_int_arg.
  split; [|split].
  - intros Hn. replace (0 <? n_layers)%Z with false
      by (symmetry; apply Z.ltb_ge; exact Hn).
    reflexivity.
  - intros ->. reflexivity.
  - intros Hn. replace (0 <? n_layers)%Z with true
      by (symmetry; apply Z.ltb_lt; lia).
    cbn [bind].
    replace (n_layers =? 1)%Z with false by (symmetry; apply Z.eqb_neq; lia).
    eexists. split; [reflexivity|]. split; [|split].
    + rewrite length_map, length_seq. reflexivity.
    + apply Forall_forall. intros f Hf. apply in_map_iff in Hf.
      destruct Hf as (i & <- & _). split; reflexivity.
    + apply NoDup_layers, seq_NoDup.
Qed.

End Factory.

(** ** The invertibility guarantee, in exact arithmetic *)

Lemma rsum_S (n : nat) (h : nat -> R) : rsum (S n) h = (rsum n h + h n)%R.
Proof.
  unfold rsum. rewrite seq_S, fold_left_app. reflexivity.
Qed.

Lemma rsum_squares_nonneg (n : nat) (w : nat -> R) :
  (0 <= rsum n (fun k => w k * w k))%R.
Proof.
  induction n as [|n IH].
  - unfold rsum. simpl. lra.
  - rewrite rsum_S. pose proof (Rle_0_sqr (w n)) as H. unfold Rsqr in H. lra.
Qed.

Lemma rsum_squares_pos (n : nat) (w : nat -> R) :
  (exists k, k < n /\ w k <> 0%R) ->
  (0 < rsum n (fun k => w k * w k))%R.
Proof.
  induction n as [|n IH]; intros (k & Hk & Hw); [lia|].
  rewrite rsum_S.
  pose proof (rsum_squares_nonneg n w) as H0.
  pose proof (Rle_0_sqr (w n)) as Hn. unfold Rsqr in Hn.
  destruct (Nat.eq_dec k n) as [-> | Hne].
  - assert (0 < w n * w n)%R by (apply Rsqr_pos_lt in Hw; exact Hw). lra.
  - assert (0 < rsum n (fun k => w k * w k))%R
      by (apply IH; exists k; split; [lia|exact Hw]).
    lra.
Qed.

Lemma rsum_squares_zero (n : nat) (w : nat -> R) :
  (forall k, k < n -> w k = 0%R) -> rsum n (fun k => w k * w k)%R = 0%R.
Proof.
  induction n as [|n IH]; intros H.
  - reflexivity.
  - rewrite rsum_S, IH, (H n) by auto. lra.
Qed.

(** [w . (u + c * w / s) = w . u + c] when [s] is the squared norm of
    [w] and is not zero. *)
Lemma rsum_corrected (n : nat) (w u : nat -> R) (c s : R) :
  s <> 0%R ->
  rsum n (fun k => w k * (u k + c * w k / s))%R
  = (rsum n (fun k => w k * u k) + c * rsum n (fun k => w k * w k) / s)%R.
Proof.
  intros Hs. induction n as [|n IH].
  - unfold rsum. simpl. field. exact Hs.
  - rewrite !rsum_S, IH. field. exact Hs.
Qed.

Lemma softplus_pos (a : R) : (0 < softplus a)%R.
Proof.
  unfold softplus. rewrite <- ln_1. apply ln_increasing; [lra|].
  pose proof (exp_pos a). lra.
Qed.

Lemma fold_dot_some (f g : nat -> R) (l : list nat) (a : R) :
  fold_left (fun acc k => sadd acc (smul (Some (f k)) (Some (g k)))) l (Some a)
  = Some (fold_left (fun acc k => acc + f k * g k)%R l a).
Proof.
  revert a. induction l as [|k l IH]; intros a; simpl; [reflexivity|].
  apply IH.
Qed.

Lemma dot_some (n : nat) (f g : nat -> R) :
  dot n (fun k => Some (f k)) (fun k => Some (g k))
  = Some (rsum n (fun k => f k * g k)%R).
Proof. unfold dot. apply fold_dot_some. Qed.

Lemma sum_squares_some (n : nat) (w : nat -> R) :
  sum_squares n (fun k => Some (w k)) = Some (rsum n (fun k => w k * w k)%R).
Proof.
  unfold sum_squares, rsum.
  change (sconst 0) with (Some 0%R).
  generalize 0%R. induction (seq 0 n) as [|k l IH]; intros a; simpl.
  - reflexivity.
  - apply IH.
Qed.

(** The correction on real parameters: a real vector when [w] is not
    zero, no value at all when [w] is zero. *)
Lemma planar_u_hat_some (n : nat) (w u : nat -> R) (j : nat) :
  planar_u_hat n (fun k => Some (w k)) (fun k => Some (u k)) j
  = let wu := rsum n (fun k => w k * u k)%R in
    let s := rsum n (fun k => w k * w k)%R in
    if Req_dec_T s 0 then None
    else Some (u j + (-1 + softplus wu - wu) * w j / s)%R.
Proof.
  unfold planar_u_hat. rewrite dot_some, sum_squares_some. cbn.
  destruct (Req_dec_T _ 0); reflexivity.
Qed.

Lemma planar_u_hat_nonzero (n : nat) (w u : nat -> R) (j : nat) :
  (exists k, k < n /\ w k <> 0%R) ->
  planar_u_hat n (fun k => Some (w k)) (fun k => Some (u k)) j
  = Some (u j + (-1 + softplus (rsum n (fun k => w k * u k)%R)
                 - rsum n (fun k => w k * u k)%R) * w j
                / rsum n (fun k => w k * w k)%R)%R.
Proof.
  intros Hw. rewrite planar_u_hat_some. cbv zeta.
  pose proof (@rsum_squares_pos n w Hw) as Hs.
  destruct (Req_dec_T _ 0) as [E | _]; [lra|reflexivity].
Qed.

Lemma planar_u_hat_zero (n : nat) (w u : nat -> R) (j : nat) :
  (forall k, k < n -> w k = 0%R) ->
  planar_u_hat n (fun k => Some (w k)) (fun k => Some (u k)) j = None.
Proof.
  intros Hw. rewrite planar_u_hat_some. cbv zeta.
  rewrite (@rsum_squares_zero n w Hw).
  destruct (Req_dec_T 0 0) as [_ | E]; [reflexivity|lra].
Qed.

Lemma tanh_sqr_lt_1 (x : R) : (tanh x * tanh x < 1)%R.
Proof.
  unfold tanh, sinh, cosh.
  pose proof (exp_pos x) as Ha. pose proof (exp_pos (- x)) as Hb.
  set (a := exp x) in *. set (b := exp (- x)) in *.
  assert (Hi : (0 < / (a + b))%R) by (apply Rinv_0_lt_compat; lra).
  assert (Hone : ((a + b) * / (a + b) = 1)%R) by (apply Rinv_r; lra).
  replace ((a - b) / 2 / ((a + b) / 2))%R with ((a - b) * / (a + b))%R
    by (field; lra).
  set (i := (/ (a + b))%R) in *.
  assert (H1 : ((a - b) * i < 1)%R) by nra.
  assert (H2 : (-1 < (a - b) * i)%R) by nra.
  nra.
Qed.

(** [(g * w) . (u + c * w / s) = g * (w . u + c)] when [s] is the squared
    norm of [w] and is not zero. *)
Lemma rsum_scaled_corrected (n : nat) (w u : nat -> R) (g c s : R) :
  s <> 0%R ->
  rsum n (fun k => g * w k * (u k + c * w k / s))%R
  = (g * (rsum n (fun k => w k * u k)
          + c * rsum n (fun k => w k * w k) / s))%R.
Proof.
  intros Hs. induction n as [|n IH].
  - unfold rsum. simpl. field. exact Hs.
  - rewrite !rsum_S, IH. field. exact Hs.
Qed.

(** The determinant on real parameters and a real input, [w] not zero. *)
Lemma planar_det_jac_some (n : nat) (w u : nat -> R) (b : R) (x : nat -> R) :
  (exists k, k < n /\ w k <> 0%R) ->
  planar_det_jac n (fun k => Some (w k)) (fun k => Some (u k)) (Some b)
                 (fun k => Some (x k))
  = Some (1 + (1 - tanh (rsum n (fun k => x k * w k) + b)
                   * tanh (rsum n (fun k => x k * w k) + b))
              * (softplus (rsum n (fun k => w k * u k)) - 1))%R.
Proof.
  intros Hnz. unfold planar_det_jac. rewrite dot_some.
  cbn [sadd ssub smul stanh ssquare sconst PartialRealOps lift1 lift2
       option_map].
  set (g := (1 - tanh (rsum n (fun k => x k * w k) + b)
                 * tanh (rsum n (fun k => x k * w k) + b))%R).
  rewrite (@dot_ext _ _ n
             (fun k => Some (g * w k)%R) (fun k => Some (g * w k)%R)
             (planar_u_hat n (fun k => Some (w k)) (fun k => Some (u k)))
             (fun j => Some (u j + (-1 + softplus (rsum n (fun k => w k * u k)%R)
                                     - rsum n (fun k => w k * u k)%R) * w j
                                    / rsum n (fun k => w k * w k)%R)%R))
    by (intros; try apply planar_u_hat_nonzero; auto).
  rewrite dot_some. cbn [lift2]. f_equal.
  pose proof (@rsum_squares_pos n w Hnz) as Hs.
  rewrite rsum_scaled_corrected by lra. field. lra.
Qed.

Lemma session_of_w (scope : VarName) (w u : list R) (b : R) :
  session_of scope w u b (scope ++ ["w"%string]) = vec w.
Proof.
  unfold session_of.
  destruct (list_eq_dec string_dec _ _); [reflexivity|congruence].
Qed.

Lemma session_of_u (scope : VarName) (w u : list R) (b : R) :
  session_of scope w u b (scope ++ ["u"%string]) = vec u.
Proof.
  unfold session_of.
  destruct (list_eq_dec string_dec _ _) as [E | _].
  - apply app_inv_head in E. discriminate.
  - destruct (list_eq_dec string_dec _ _); [reflexivity|congruence].
Qed.

Lemma example_flow_built : _build example_flow0 example_x0 = Ok example_flow.
Proof. reflexivity. Qed.

Section Invertibility.
Variables Initializer Regularizer : Type.

(** What [w . u_hat] is in a session that holds real parameters. *)
Lemma w_dot_u_hat
    (self : PlanarNormalizingFlow (F:=PartialReal) Initializer Regularizer)
    (n : nat) (attrs : Built) (st : Session) (w u : nat -> R) :
  built_for self n -> _built self = Some attrs ->
  (forall k, k < n -> st (variable_scope self ++ ["w"%string]) k = Some (w k)) ->
  (forall k, k < n -> st (variable_scope self ++ ["u"%string]) k = Some (u k)) ->
  dot n (st (variable_scope self ++ ["w"%string]))
        (entry (run st (_u_hat attrs)))
  = dot n (fun k => Some (w k))
          (planar_u_hat n (fun k => Some (w k)) (fun k => Some (u k))).
Proof.
  intros Hbf Ha Hw Hu. apply dot_ext.
  - exact Hw.
  - intros l Hl.
    etransitivity; [apply (u_hat_entry st Hbf Ha Hl)|].
    apply planar_u_hat_ext; assumption.
Qed.

(** C3, as the code has it.  In exact arithmetic, for real parameters
    with [w] not the zero vector, the [u_hat] of a built flow is
    [u + (softplus(w.u) - 1 - w.u) * w / |w|^2] and satisfies
    [w . u_hat = softplus(w . u) - 1], which is above [-1]; and the
    determinant of the Jacobian is then a real number that is not zero, at
    every real input. *)
Theorem invertibility_for_nonzero_w
    (self0 self : PlanarNormalizingFlow (F:=PartialReal) Initializer Regularizer)
    (x0 : Tensor Node) (st : Session) (w u : nat -> R) :
  _build self0 x0 = Ok self ->
  (forall k, k < last (shape x0) 0 ->
      st (variable_scope self ++ ["w"%string]) k = Some (w k)) ->
  (forall k, k < last (shape x0) 0 ->
      st (variable_scope self ++ ["u"%string]) k = Some (u k)) ->
  (exists k, k < last (shape x0) 0 /\ w k <> 0%R) ->
  invertible_at self (last (shape x0) 0) st /\
  (forall (b : R) (x : nat -> R),
      st (variable_scope self ++ ["b"%string]) 0 = Some b ->
      det_jac_nonzero_at self (last (shape x0) 0) st x) /\
  forall attrs, _built self = Some attrs ->
    (forall j, j < last (shape x0) 0 ->
        entry (run st (_u_hat attrs)) j
        = Some (u j
                + (softplus (rsum (last (shape x0) 0%nat)
                                  (fun k => w k * u k)%R)
                   - 1
                   - rsum (last (shape x0) 0%nat) (fun k => w k * u k)%R)
                  * w j
                  / rsum (last (shape x0) 0%nat) (fun k => w k * w k)%R)%R) /\
    dot (last (shape x0) 0) (st (variable_scope self ++ ["w"%string]))
        (entry (run st (_u_hat attrs)))
    = Some (softplus (rsum (last (shape x0) 0%nat) (fun k => w k * u k)%R)
            - 1)%R.
Proof.
  intros Hb Hw Hu Hnz.
  destruct (built_of_build self0 x0 Hb) as [Hbf _].
  set (n := last (shape x0) 0) in *.
  pose proof (@rsum_squares_pos n w Hnz) as Hs.
  assert (Hval : forall attrs, _built self = Some attrs ->
    dot n (st (variable_scope self ++ ["w"%string]))
        (entry (run st (_u_hat attrs)))
    = Some (softplus (rsum n (fun k => w k * u k)%R) - 1)%R).
  { intros attrs Ha.
    rewrite (w_dot_u_hat st w u Hbf Ha Hw Hu).
    rewrite (@dot_ext _ _ n (fun k => Some (w k)) (fun k => Some (w k))
               (planar_u_hat n (fun k => Some (w k)) (fun k => Some (u k)))
               (fun j => Some (u j + (-1 + softplus (rsum n (fun k => w k * u k)%R)
                                       - rsum n (fun k => w k * u k)%R) * w j
                                      / rsum n (fun k => w k * w k)%R)%R))
      by (intros; try apply planar_u_hat_nonzero; auto).
    rewrite dot_some. f_equal.
    rewrite rsum_corrected by lra. field. lra. }
  split; [|split].
  - pose proof Hbf as (u_hat & Ha & _).
    eexists _, _. split; [exact Ha|]. split; [apply (Hval _ Ha)|].
    pose proof (softplus_pos (rsum n (fun k => w k * u k)%R)). lra.
  - intros b x Hbv. unfold det_jac_nonzero_at. rewrite Hbv.
    rewrite (planar_det_jac_ext _ (fun k => Some (w k)) _ (fun k => Some (u k))
               (Some b) _ (fun k => Some (x k)) Hw Hu (fun _ _ => eq_refl)).
    rewrite (@planar_det_jac_some n w u b x Hnz).
    eexists. split; [reflexivity|].
    pose proof (tanh_sqr_lt_1 (rsum n (fun k => x k * w k)%R + b)%R) as Ht.
    pose proof (softplus_pos (rsum n (fun k => w k * u k)%R)) as Hp.
    set (t := tanh (rsum n (fun k => x k * w k)%R + b)%R) in *.
    assert (0 <= t * t)%R by nra. nra.
  - intros attrs Ha. split; [|exact (Hval attrs Ha)].
    intros j Hj.
    etransitivity; [apply (u_hat_entry st Hbf Ha Hj)|].
    etransitivity;
      [apply (planar_u_hat_ext _ (fun k => Some (w k)) _ (fun k => Some (u k))
                Hw Hu Hj)|].
    rewrite (@planar_u_hat_nonzero n w u j Hnz).
    f_equal. unfold Rdiv. ring.
Qed.

End Invertibility.

(** C3, counterexample.  With [w = (0, 0)] and [u = (1, 1)], which are
    finite, the correction divides zero by zero: [u_hat] has no value and
    [w . u_hat] is not a number above [-1]. *)
Lemma invertibility_fails_at_zero_w :
  ~ invertible_at example_flow 2
      (session_of (variable_scope example_flow) [0; 0]%R [1; 1]%R 0%R).
Proof.
  intros (attrs & r & Ha & Hd & _).
  destruct (built_of_build example_flow0 example_x0 example_flow_built)
    as [Hbf _].
  change (last (shape example_x0) 0) with 2 in Hbf.
  rewrite (w_dot_u_hat _ (fun _ => 0%R) (fun _ => 1%R) Hbf Ha) in Hd.
  - assert (Hz : forall l, l < 2 ->
               planar_u_hat 2 (fun _ => Some 0%R) (fun _ => Some 1%R) l = None)
      by (intros l _;
          exact (@planar_u_hat_zero 2 (fun _ => 0%R) (fun _ => 1%R) l
                   (fun _ _ => eq_refl))).
    rewrite (@dot_ext _ _ 2 (fun _ => Some 0%R) (fun _ => Some 0%R)
               (planar_u_hat 2 (fun _ => Some 0%R) (fun _ => Some 1%R))
               (fun _ => None) (fun _ _ => eq_refl) Hz) in Hd.
    cbn in Hd. discriminate.
  - intros k Hk. rewrite session_of_w.
    destruct k as [|[|k]]; [reflexivity|reflexivity|lia].
  - intros k Hk. rewrite session_of_u.
    destruct k as [|[|k]]; [reflexivity|reflexivity|lia].
Qed.

(** ** The theorems at work on the small flow *)

Lemma forward_y_formula_witness :
  exists y log_det,
    transform example_flow example_x true true
    = Ok (example_flow, (Some y, log_det)) /\
    shape y = [2; 1; 2].
Proof.
  destruct (@forward_y_formula _ _ _ _ example_flow0 example_flow
              example_x0 example_x [2; 1] true eq_refl eq_refl
              ltac:(discriminate))
    as (y & ld & _ & H & Hs & _).
  exists y, ld. split; [exact H|exact Hs].
Defined.

Lemma forward_log_det_formula_witness :
  exists y log_det,
    transform example_flow example_x true true
    = Ok (example_flow, (y, Some log_det)) /\
    shape log_det = [2; 1].
Proof.
  destruct (@forward_log_det_formula _ _ _ _ example_flow0 example_flow
              example_x0 example_x [2; 1] true eq_refl eq_refl
              ltac:(discriminate))
    as (y & ld & _ & H & Hs & _).
  exists y, ld. split; [exact H|exact Hs].
Defined.

Lemma compute_flags_independent_witness :
  exists y log_det,
    transform example_flow example_x true true
    = Ok (example_flow, (Some y, Some log_det)) /\
    transform example_flow example_x true false
    = Ok (example_flow, (Some y, None)) /\
    transform example_flow example_x false true
    = Ok (example_flow, (None, Some log_det)).
Proof.
  destruct (@compute_flags_independent _ _ _ _ example_flow0 example_flow
              example_x0 example_x [2; 1] eq_refl eq_refl
              ltac:(discriminate))
    as (y & ld & _ & H).
  exists y, ld. exact H.
Defined.

Lemma u_hat_follows_parameters_witness :
  exists attrs,
    _built example_flow = Some attrs /\
    forall (st : Session) (j : nat), j < 2 ->
      entry (run st (_u_hat attrs)) j
      = planar_u_hat 2 (st ["planar_normalizing_flow"; "w"]%string)
                       (st ["planar_normalizing_flow"; "u"]%string) j.
Proof.
  eexists. split; [reflexivity|].
  exact (proj1 (@u_hat_follows_parameters _ _ _ _ example_flow0 example_flow
                  example_x0 _ eq_refl eq_refl)).
Defined.

Lemma batch_shape_invariance_witness :
  exists x2 y log_det y2 log_det2,
    reshape example_x [2; 2] = Ok x2 /\
    _transform example_flow example_x true true
    = Ok (Some y, Some log_det) /\
    _transform example_flow x2 true true = Ok (Some y2, Some log_det2) /\
    transform example_flow example_x true true
    = Ok (example_flow, (Some y, Some log_det)) /\
    transform example_flow x2 true true
    = Ok (example_flow, (Some y2, Some log_det2)) /\
    reshape y2 [2; 1; 2] = Ok y /\
    reshape log_det2 [2; 1] = Ok log_det.
Proof.
  exact (@batch_shape_invariance _ _ _ _ example_flow0 example_flow
           example_x0 example_x 2 1 eq_refl eq_refl).
Defined.

Lemma trailing_dimension_fixed_witness :
  transform example_flow example_x3 true true = Raise ShapeError.
Proof.
  refine (proj2 (proj1 (@trailing_dimension_fixed _ _ _ _ example_flow0
                          example_flow example_x0 example_x3
                          true true true true _ eq_refl eq_refl)
                       [1] 3 eq_refl _) eq_refl).
  cbn. discriminate.
Defined.

Lemma invertibility_for_nonzero_w_witness :
  invertible_at example_flow 2
    (session_of (variable_scope example_flow) [1; 0]%R [0; 0]%R 0%R).
Proof.
  refine (proj1 (@invertibility_for_nonzero_w _ _ example_flow0 example_flow
                   example_x0 _ (fun k => nth k [1; 0]%R 0%R)
                   (fun k => nth k [0; 0]%R 0%R) eq_refl _ _ _)).
  - intros k Hk. rewrite session_of_w.
    destruct k as [|[|k]]; [reflexivity|reflexivity|cbn in Hk; lia].
  - intros k Hk. rewrite session_of_u.
    destruct k as [|[|k]]; [reflexivity|reflexivity|cbn in Hk; lia].
  - exists 0. split; [cbn; lia|cbn; lra].
Defined.

Lemma factory_contract_witness :
  exists flows,
    planar_normalizing_flows (F:=PartialReal) [] 3 example_kwargs None None
    = Ok (SequentialFlow flows) /\
    length flows = 3 /\
    Forall (fun f => kwargs f = example_kwargs /\ _built f = None) flows /\
    NoDup (concat (map (@variable_names PartialReal unit unit) flows)).
Proof.
  refine (proj2 (proj2 (@factory_contract PartialReal unit unit [] 3
                          example_kwargs None None)) _).
  reflexivity.
Defined.

(** ** Further properties of the flow *)

Section Further.
Context {F : Type} {SF : ScalarOps F}.
Variables Initializer Regularizer : Type.

Lemma planar_y_ext_all (n : nat) (w w' u u' : nat -> F) (b : F)
    (x x' : nat -> F) (j : nat) :
  (forall k, k < n -> w k = w' k) ->
  (forall k, k < n -> u k = u' k) ->
  (forall k, k < n -> x k = x' k) ->
  j < n ->
  planar_y n w u b x j = planar_y n w' u' b x' j.
Proof.
  intros Hw Hu Hx Hj. unfold planar_y.
  rewrite (@dot_ext _ _ n x x' w w' Hx Hw), (Hx j Hj).
  rewrite (planar_u_hat_ext w w' u u' Hw Hu Hj). reflexivity.
Qed.

(** X1.  [_build] succeeds on every input with at least two dimensions:
    it keeps the configuration, records the contract [('...', '?',
    n_units)] for the last dimension [n_units] of the input, and makes [w],
    [u] and [u_hat] of shape [[1; n_units]] and [b] of shape [[1]].  On an
    input with fewer than two dimensions it raises [ShapeError]. *)
Theorem build_fixes_n_units
    (self : PlanarNormalizingFlow (F:=F) Initializer Regularizer)
    (x0 : Tensor (@Node F)) :
  (forall bs n, shape x0 = bs ++ [n] -> bs <> [] ->
     exists self' attrs,
       _build self x0 = Ok self' /\
       kwargs self' = kwargs self /\
       variable_scope self' = variable_scope self /\
       _built self' = Some attrs /\
       _input_spec attrs = [Ellipsis; AnyDim; Dim n] /\
       shape (_w attrs) = [1; n] /\ shape (_b attrs) = [1] /\
       shape (_u attrs) = [1; n] /\ shape (_u_hat attrs) = [1; n]) /\
  (rank x0 < 2 -> _build self x0 = Raise ShapeError).
Proof.
  split.
  - intros bs n Hs Hbs.
    destruct (_build_spec self x0 n Hs Hbs)
      as (self' & E & Hsc & Hkw & u_hat & Hb & [Su _] & _).
    eexists self', _. split; [exact E|]. split; [exact Hkw|].
    split; [exact Hsc|]. split; [exact Hb|].
    cbn [_input_spec _w _b _u _u_hat]. repeat split. exact Su.
  - intros Hr. unfold _build, validate. cbn [length].
    replace (2 <=? rank x0) with false
      by (symmetry; apply Nat.leb_gt; exact Hr).
    reflexivity.
Qed.

(** Two sessions that agree on the variables of the flow and on the
    input give the same outputs. *)
Lemma transform_sessions_agree
    (self0 self : PlanarNormalizingFlow (F:=F) Initializer Regularizer)
    (x0 x : Tensor (@Node F)) (bs : list nat) (st st' : Session) :
  _build self0 x0 = Ok self ->
  shape x = bs ++ [last (shape x0) 0] ->
  bs <> [] ->
  (forall leaf k, In leaf ["w"; "b"; "u"]%string ->
      st' (variable_scope self ++ [leaf]) k
      = st (variable_scope self ++ [leaf]) k) ->
  (forall q, entry (run st' x) q = entry (run st x) q) ->
  exists y log_det,
    _transform self x true true = Ok (Some y, Some log_det) /\
    (forall i j, i < size bs -> j < last (shape x0) 0 ->
        entry (run st' y) (i * last (shape x0) 0 + j)
        = entry (run st y) (i * last (shape x0) 0 + j)) /\
    (forall i, i < size bs ->
        entry (run st' log_det) i = entry (run st log_det) i).
Proof.
  intros Hb Hs Hbs Hvar Hx.
  destruct (built_of_build self0 x0 Hb) as [Hbf _].
  set (n := last (shape x0) 0) in *.
  destruct (_transform_spec x Hbf Hs Hbs) as (y & ld & Ht & _ & _ & Ey & El).
  assert (Hrow : forall i l, row x n i l st' = row x n i l st).
  { intros i l. rewrite <- !row_run. apply Hx. }
  exists y, ld. split; [apply (Ht true true)|]. split.
  - intros i j Hi Hj.
    rewrite !entry_run, Ey, !planar_y_run by assumption.
    unfold param. rewrite (Hvar "b"%string) by (cbn; auto).
    apply planar_y_ext_all; try exact Hj; intros l _;
      try (apply Hvar; cbn; auto); apply Hrow.
  - intros i Hi.
    rewrite !entry_run, El, !planar_log_det_run by assumption.
    unfold param. rewrite (Hvar "b"%string) by (cbn; auto).
    apply planar_log_det_ext; intros l _;
      try (apply Hvar; cbn; auto); apply Hrow.
Qed.

(** X2.  The outputs of a forward call depend on the session only
    through the input and the flow's own variables [w], [b] and [u]: an
    assignment to any other variable, when it does not change the input,
    changes no entry of [y] and of [log_det]. *)
Theorem other_variables_do_not_matter
    (self0 self : PlanarNormalizingFlow (F:=F) Initializer Regularizer)
    (x0 x : Tensor (@Node F)) (bs : list nat)
    (st : Session) (v : VarName) (k : nat) (val : F) :
  _build self0 x0 = Ok self ->
  shape x = bs ++ [last (shape x0) 0] ->
  bs <> [] ->
  ~ In v (variable_names self) ->
  (forall q, entry (run (assign st v k val) x) q = entry (run st x) q) ->
  exists y log_det,
    _transform self x true true = Ok (Some y, Some log_det) /\
    (forall i j, i < size bs -> j < last (shape x0) 0 ->
        entry (run (assign st v k val) y) (i * last (shape x0) 0 + j)
        = entry (run st y) (i * last (shape x0) 0 + j)) /\
    (forall i, i < size bs ->
        entry (run (assign st v k val) log_det) i = entry (run st log_det) i).
Proof.
  intros Hb Hs Hbs Hv Hx.
  apply (transform_sessions_agree self0 x0 x st (assign st v k val) Hb Hs Hbs);
    [|exact Hx].
  intros leaf k' Hl. apply assign_other. intros ->. apply Hv.
  unfold variable_names. cbn [In] in *.
  destruct Hl as [<- | [<- | [<- | []]]]; auto.
Qed.

End Further.

(** ** A scenario in exact arithmetic *)

Lemma planar_y_some (n : nat) (w u : nat -> R) (b : R) (x : nat -> R)
    (j : nat) :
  (exists k, k < n /\ w k <> 0%R) ->
  planar_y n (fun k => Some (w k)) (fun k => Some (u k)) (Some b)
           (fun k => Some (x k)) j
  = Some (x j
          + (u j + (-1 + softplus (rsum n (fun k => w k * u k))
                    - rsum n (fun k => w k * u k)) * w j
                   / rsum n (fun k => w k * w k))
            * tanh (rsum n (fun k => x k * w k) + b))%R.
Proof.
  intros Hnz. unfold planar_y.
  rewrite (@planar_u_hat_nonzero n w u j Hnz), dot_some. reflexivity.
Qed.

Lemma planar_log_det_some (n : nat) (w u : nat -> R) (b : R) (x : nat -> R) :
  (exists k, k < n /\ w k <> 0%R) ->
  planar_log_det n (fun k => Some (w k)) (fun k => Some (u k)) (Some b)
                 (fun k => Some (x k))
  = Some (ln (1 + (1 - tanh (rsum n (fun k => x k * w k) + b)
                       * tanh (rsum n (fun k => x k * w k) + b))
                  * (softplus (rsum n (fun k => w k * u k)) - 1)))%R.
Proof.
  intros Hnz. unfold planar_log_det.
  rewrite (@planar_det_jac_some n w u b x Hnz).
  pose proof (tanh_sqr_lt_1 (rsum n (fun k => x k * w k)%R + b)%R) as Ht.
  pose proof (softplus_pos (rsum n (fun k => w k * u k)%R)) as Hp.
  set (t := tanh (rsum n (fun k => x k * w k)%R + b)%R) in *.
  set (sp := softplus (rsum n (fun k => w k * u k)%R)) in *.
  assert (Hd : (0 < 1 + (1 - t * t) * (sp - 1))%R)
    by (assert (0 <= t * t)%R by nra; nra).
  cbn [slog sabs PartialRealOps lift1 option_map plog].
  rewrite Rabs_pos_eq by lra.
  destruct (Rlt_dec 0 _) as [_ | H]; [reflexivity|contradiction].
Qed.

(** The scenario of the specification, in exact arithmetic:
    [w = [[0.1, -0.2]]], [b = [0.05]], [u = [[0.3, 0.1]]] and
    [x = [[1.0, 2.0]]].  Then [w.u = 0.01], [|w|^2 = 0.05],
    [w.x + b = -0.25], and the forward call returns the [y] and the
    [log_det] of the formulas. *)
Theorem spec_scenario :
  exists y log_det,
    _transform example_flow example_x0 true true
    = Ok (Some y, Some log_det) /\
    shape y = [1; 2] /\ shape log_det = [1] /\
    entry (run (session_of (variable_scope example_flow)
                  [1 / 10; - 2 / 10] [3 / 10; 1 / 10] (5 / 100))%R y) 0
    = Some (1 + (3 / 10 + (softplus (1 / 100) - 1 - 1 / 100) * (1 / 10)
                          / (5 / 100))
                * tanh (- 1 / 4))%R /\
    entry (run (session_of (variable_scope example_flow)
                  [1 / 10; - 2 / 10] [3 / 10; 1 / 10] (5 / 100))%R y) 1
    = Some (2 + (1 / 10 + (softplus (1 / 100) - 1 - 1 / 100) * (- 2 / 10)
                          / (5 / 100))
                * tanh (- 1 / 4))%R /\
    entry (run (session_of (variable_scope example_flow)
                  [1 / 10; - 2 / 10] [3 / 10; 1 / 10] (5 / 100))%R log_det) 0
    = Some (ln (1 + (1 - tanh (- 1 / 4) * tanh (- 1 / 4))
                    * (softplus (1 / 100) - 1)))%R.
Proof.
  destruct (built_of_build example_flow0 example_x0 example_flow_built)
    as [Hbf _].
  change (last (shape example_x0) 0) with 2 in Hbf.
  destruct (_transform_spec (bs := [1]) example_x0 Hbf eq_refl
              ltac:(discriminate))
    as (y & ld & Ht & [Sy _] & [Sl _] & Ey & El).
  set (st := session_of (variable_scope example_flow)
               [1 / 10; - 2 / 10]%R [3 / 10; 1 / 10]%R (5 / 100)%R).
  set (w := fun k => nth k [1 / 10; - 2 / 10]%R 0%R).
  set (u := fun k => nth k [3 / 10; 1 / 10]%R 0%R).
  set (x := fun k => nth k [1; 2]%R 0%R).
  assert (Hw : forall k, k < 2 ->
             param (variable_scope example_flow) "w" k st = Some (w k)).
  { intros k Hk. unfold param, st. rewrite session_of_w.
    destruct k as [|[|k]]; [reflexivity|reflexivity|lia]. }
  assert (Hu : forall k, k < 2 ->
             param (variable_scope example_flow) "u" k st = Some (u k)).
  { intros k Hk. unfold param, st. rewrite session_of_u.
    destruct k as [|[|k]]; [reflexivity|reflexivity|lia]. }
  assert (Hx : forall k, k < 2 -> row example_x0 2 0 k st = Some (x k)).
  { intros k Hk. destruct k as [|[|k]]; [reflexivity|reflexivity|lia]. }
  assert (Hbv : param (variable_scope example_flow) "b" 0 st
                = Some (5 / 100)%R) by reflexivity.
  assert (Hnz : exists k, k < 2 /\ w k <> 0%R)
    by (exists 0; split; [lia|unfold w; cbn; lra]).
  assert (Hwu : rsum 2 (fun k => w k * u k)%R = (1 / 100)%R)
    by (unfold rsum, w, u; cbn; lra).
  assert (Hww : rsum 2 (fun k => w k * w k)%R = (5 / 100)%R)
    by (unfold rsum, w; cbn; lra).
  assert (Hxw : (rsum 2 (fun k => x k * w k) + 5 / 100)%R = (- 1 / 4)%R)
    by (unfold rsum, w, x; cbn; lra).
  assert (Hy : forall j, j < 2 ->
    entry (run st y) j
    = Some (x j + (u j + (-1 + softplus (1 / 100) - 1 / 100) * w j / (5 / 100))
                  * tanh (- 1 / 4))%R).
  { intros j Hj. rewrite entry_run.
    replace j with (0 * 2 + j) at 1 by lia.
    rewrite Ey, planar_y_run by (cbn; lia).
    rewrite Hbv.
    rewrite (planar_y_ext_all _ (fun k => Some (w k)) _ (fun k => Some (u k))
               (Some (5 / 100)%R) _ (fun k => Some (x k)) Hw Hu Hx Hj).
    rewrite (@planar_y_some 2 w u (5 / 100)%R x j Hnz), Hwu, Hww, Hxw.
    reflexivity. }
  exists y, ld. split; [apply (Ht true true)|].
  split; [exact Sy|]. split; [exact Sl|]. split; [|split].
  - rewrite (Hy 0) by lia. f_equal. unfold x, u, w. cbn [nth]. lra.
  - rewrite (Hy 1) by lia. f_equal. unfold x, u, w. cbn [nth]. lra.
  - rewrite entry_run, El, planar_log_det_run by (cbn; lia).
    rewrite Hbv.
    rewrite (planar_log_det_ext _ (fun k => Some (w k)) _ (fun k => Some (u k))
               (Some (5 / 100)%R) _ (fun k => Some (x k)) Hw Hu Hx).
    rewrite (@planar_log_det_some 2 w u (5 / 100)%R x Hnz), Hwu, Hxw.
    reflexivity.
Qed.

Lemma other_variables_do_not_matter_witness :
  exists y log_det,
    _transform example_flow example_x true true
    = Ok (Some y, Some log_det) /\
    entry (run (assign (session_of [] [] [] 0%R) ["other"%string] 0 (Some 1%R))
               y) 0
    = entry (run (session_of [] [] [] 0%R) y) 0.
Proof.
  destruct (@other_variables_do_not_matter _ _ _ _ example_flow0 example_flow
              example_x0 example_x [2; 1] (session_of [] [] [] 0%R)
              ["other"%string] 0 (Some 1%R) eq_refl eq_refl
              ltac:(discriminate))
    as (y & ld & H & Hy & _).
  - cbn. intros [H | [H | [H | []]]]; discriminate.
  - intros q. reflexivity.
  - exists y, ld. split; [exact H|]. apply (Hy 0 0); cbn; lia.
Defined.

(** ** The forward call on real numbers *)

Lemma rsum_ext (n : nat) (f g : nat -> R) :
  (forall k, k < n -> f k = g k) -> rsum n f = rsum n g.
Proof.
  induction n as [|n IH]; intros H.
  - reflexivity.
  - rewrite !rsum_S, IH, (H n) by auto. reflexivity.
Qed.

Lemma real_u_hat_some (n : nat) (w u : nat -> R) (j : nat) :
  (exists k, k < n /\ w k <> 0%R) ->
  planar_u_hat n (fun k => Some (w k)) (fun k => Some (u k)) j
  = Some (real_u_hat n w u j).
Proof. intros Hnz. apply (@planar_u_hat_nonzero n w u j Hnz). Qed.

(** [w . u_hat = softplus(w . u) - 1] on real numbers. *)
Lemma real_w_dot_u_hat (n : nat) (w u : nat -> R) :
  (exists k, k < n /\ w k <> 0%R) ->
  rsum n (fun k => real_u_hat n w u k * w k)%R
  = (softplus (rsum n (fun k => w k * u k)) - 1)%R.
Proof.
  intros Hnz. pose proof (@rsum_squares_pos n w Hnz) as Hs.
  unfold real_u_hat.
  set (c := (-1 + softplus (rsum n (fun k => w k * u k))
             - rsum n (fun k => w k * u k))%R).
  set (s := rsum n (fun k => w k * w k)%R) in *.
  rewrite (@rsum_ext n _ (fun k => w k * (u k + c * w k / s))%R)
    by (intros; ring).
  rewrite (@rsum_corrected n w u c s) by lra.
  fold s. unfold c. field. lra.
Qed.

(** The projection of the output on [w]:
    [w . y = w . x + (w . u_hat) * tanh(w . x + b)]. *)
Lemma real_y_projection (n : nat) (w u : nat -> R) (b : R) (x : nat -> R) :
  rsum n (fun k => real_y n w u b x k * w k)%R
  = (rsum n (fun k => x k * w k)
     + rsum n (fun k => real_u_hat n w u k * w k)
       * tanh (rsum n (fun k => x k * w k) + b))%R.
Proof.
  unfold real_y.
  generalize (tanh (rsum n (fun k => x k * w k)%R + b)%R) as t.
  generalize (real_u_hat n w u) as uh.
  intros uh t. induction n as [|n IH].
  - unfold rsum. simpl. ring.
  - rewrite !rsum_S, IH. ring.
Qed.

Lemma cosh_positive (x : R) : (0 < cosh x)%R.
Proof.
  unfold cosh. pose proof (exp_pos x). pose proof (exp_pos (- x)). lra.
Qed.

Lemma cosh_sinh_squares (x : R) :
  (cosh x * cosh x - sinh x * sinh x = 1)%R.
Proof.
  unfold cosh, sinh.
  assert (H : (exp x * exp (- x) = 1)%R)
    by (rewrite <- exp_plus, Rplus_opp_r; apply exp_0).
  nra.
Qed.

Lemma derivable_pt_lim_tanh (x : R) :
  derivable_pt_lim tanh x (1 - tanh x * tanh x)%R.
Proof.
  pose proof (cosh_positive x) as Hc.
  replace (1 - tanh x * tanh x)%R
    with ((cosh x * cosh x - sinh x * sinh x) / Rsqr (cosh x))%R.
  - apply (derivable_pt_lim_div sinh cosh x (cosh x) (sinh x)).
    + apply derivable_pt_lim_sinh.
    + apply derivable_pt_lim_cosh.
    + lra.
  - unfold tanh, Rsqr. field. lra.
Qed.

(** [tanh] increases, and by no more than its argument. *)
Lemma tanh_increment (a b : R) :
  (a < b)%R -> (0 < tanh b - tanh a <= b - a)%R.
Proof.
  intros Hab.
  destruct (MVT_cor2 tanh (fun c => 1 - tanh c * tanh c)%R a b Hab)
    as (c & Hc & _).
  - intros c _. apply derivable_pt_lim_tanh.
  - rewrite Hc. pose proof (tanh_sqr_lt_1 c).
    assert (0 <= tanh c * tanh c)%R by nra. nra.
Qed.

(** Along [w] the flow is the map [t |-> t + c * tanh(t + b)], which
    increases when [c] is above [-1]. *)
Lemma planar_line_increasing (c b t1 t2 : R) :
  (-1 < c)%R -> (t1 < t2)%R ->
  (t1 + c * tanh (t1 + b) < t2 + c * tanh (t2 + b))%R.
Proof.
  intros Hc Ht.
  destruct (@tanh_increment (t1 + b)%R (t2 + b)%R) as [H1 H2]; [lra|].
  nra.
Qed.

Lemma planar_line_injective (c b t1 t2 : R) :
  (-1 < c)%R ->
  (t1 + c * tanh (t1 + b) = t2 + c * tanh (t2 + b))%R -> t1 = t2.
Proof.
  intros Hc He.
  destruct (Rtotal_order t1 t2) as [H | [H | H]]; [|exact H|].
  - pose proof (@planar_line_increasing c b t1 t2 Hc H). lra.
  - pose proof (@planar_line_increasing c b t2 t1 Hc H). lra.
Qed.

Lemma tanh_abs_lt_1 (x : R) : (Rabs (tanh x) < 1)%R.
Proof.
  pose proof (tanh_sqr_lt_1 x) as H.
  apply Rabs_def1; nra.
Qed.

Lemma tanh_0 : tanh 0 = 0%R.
Proof. unfold tanh. rewrite sinh_0. unfold Rdiv. ring. Qed.

Lemma real_det_jac_bounds (n : nat) (w u : nat -> R) (b : R) (x : nat -> R) :
  (Rmin 1 (softplus (rsum n (fun k => w k * u k)))
   <= real_det_jac n w u b x
   <= Rmax 1 (softplus (rsum n (fun k => w k * u k))))%R.
Proof.
  unfold real_det_jac.
  pose proof (tanh_sqr_lt_1 (rsum n (fun k => x k * w k)%R + b)%R) as Ht.
  set (t := tanh (rsum n (fun k => x k * w k)%R + b)%R) in *.
  set (sp := softplus (rsum n (fun k => w k * u k)%R)).
  assert (H0 : (0 <= t * t)%R) by nra.
  unfold Rmin, Rmax. destruct (Rle_dec 1 sp); split; nra.
Qed.

Section ForwardReal.
Variables Initializer Regularizer : Type.

(** What [_transform] computes in a session that holds real parameters
    with [w] not zero, on a row of real numbers. *)
Lemma forward_real
    (self0 self : PlanarNormalizingFlow (F:=PartialReal) Initializer Regularizer)
    (x0 x : Tensor Node) (bs : list nat) (st : Session)
    (w u : nat -> R) (b : R) :
  _build self0 x0 = Ok self ->
  shape x = bs ++ [last (shape x0) 0] ->
  bs <> [] ->
  holds_parameters self (last (shape x0) 0) st w u b ->
  (exists k, k < last (shape x0) 0 /\ w k <> 0%R) ->
  exists y log_det,
    (forall cy cl : bool,
        _transform self x cy cl
        = Ok (if cy then Some y else None,
              if cl then Some log_det else None)) /\
    forall i xr, i < size bs -> holds_row st x (last (shape x0) 0) i xr ->
      (forall j, j < last (shape x0) 0 ->
          entry (run st y) (i * last (shape x0) 0 + j)
          = Some (real_y (last (shape x0) 0) w u b xr j)) /\
      entry (run st log_det) i
      = Some (ln (real_det_jac (last (shape x0) 0) w u b xr)).
Proof.
  intros Hb Hs Hbs (Hw & Hu & Hbv) Hnz.
  destruct (built_of_build self0 x0 Hb) as [Hbf _].
  set (n := last (shape x0) 0) in *.
  destruct (_transform_spec x Hbf Hs Hbs) as (y & ld & Ht & _ & _ & Ey & El).
  exists y, ld. split; [exact Ht|].
  intros i xr Hi Hx.
  assert (Hrow : forall k, k < n -> row x n i k st = Some (xr k))
    by (intros k Hk; rewrite <- row_run; apply Hx; exact Hk).
  split.
  - intros j Hj.
    rewrite entry_run, Ey, planar_y_run by assumption.
    unfold param at 3. rewrite Hbv.
    etransitivity;
      [apply (planar_y_ext_all _ (fun k => Some (w k)) _ (fun k => Some (u k))
                (Some b) _ (fun k => Some (xr k)) Hw Hu Hrow Hj)|].
    apply (@planar_y_some n w u b xr j Hnz).
  - rewrite entry_run, El, planar_log_det_run by assumption.
    unfold param at 3. rewrite Hbv.
    etransitivity;
      [apply (planar_log_det_ext _ (fun k => Some (w k)) _
                (fun k => Some (u k)) (Some b) _ (fun k => Some (xr k))
                Hw Hu Hrow)|].
    apply (@planar_log_det_some n w u b xr Hnz).
Qed.

End ForwardReal.

(** ** Rows, shapes and layers *)

Section Rows.
Context {F : Type} {SF : ScalarOps F}.
Variables Initializer Regularizer : Type.

(** X4.  [_transform] accepts the input [_build] was given: building a
    flow on an input and transforming that input never fails, whatever
    the switches; [y] has the shape of the input and [log_det] that shape
    without its last dimension. *)
Theorem build_then_transform
    (self0 self : PlanarNormalizingFlow (F:=F) Initializer Regularizer)
    (x0 : Tensor (@Node F)) :
  _build self0 x0 = Ok self ->
  exists y log_det,
    (forall cy cl : bool,
        _transform self x0 cy cl
        = Ok (if cy then Some y else None,
              if cl then Some log_det else None)) /\
    shape y = shape x0 /\
    shape log_det ++ [last (shape x0) 0] = shape x0.
Proof.
  intros Hb.
  destruct (_build_inv self0 x0 Hb) as (_ & _ & bs & n & Hbs & Hs & Hbf).
  destruct (_transform_spec x0 Hbf Hs Hbs)
    as (y & ld & Ht & [Sy _] & [Sl _] & _).
  exists y, ld. split; [exact Ht|].
  rewrite Sy, Sl, Hs, last_last. split; reflexivity.
Qed.

(** X5.  A built flow accepts exactly the inputs that have at least two
    dimensions, the last one being [n_units]: on these [_transform]
    returns, on every other input (a single vector of [n_units] entries
    included) it raises [ShapeError], and no other error. *)
Theorem accepts_exactly
    (self0 self : PlanarNormalizingFlow (F:=F) Initializer Regularizer)
    (x0 x : Tensor (@Node F)) (cy cl : bool) :
  _build self0 x0 = Ok self ->
  ((exists bs, bs <> [] /\ shape x = bs ++ [last (shape x0) 0]) ->
     exists out, _transform self x cy cl = Ok out) /\
  (~ (exists bs, bs <> [] /\ shape x = bs ++ [last (shape x0) 0]) ->
     _transform self x cy cl = Raise ShapeError) /\
  (rank x < 2 -> _transform self x cy cl = Raise ShapeError).
Proof.
  intros Hb.
  destruct (built_of_build self0 x0 Hb) as [Hbf _].
  set (n := last (shape x0) 0) in *.
  assert (Hbad : ~ (exists bs, bs <> [] /\ shape x = bs ++ [n]) ->
                 _transform self x cy cl = Raise ShapeError).
  { intros Hno.
    destruct (_transform_validates x cy cl Hbf) as [[_ Hr] | (bs & Hbs & Hs)].
    - exact Hr.
    - exfalso. apply Hno. exists bs. auto. }
  split; [|split].
  - intros (bs & Hbs & Hs).
    destruct (_transform_spec x Hbf Hs Hbs) as (y & ld & Ht & _).
    eexists. apply Ht.
  - exact Hbad.
  - intros Hr. apply Hbad. intros (bs & Hbs & Hs).
    unfold rank in Hr. rewrite Hs, length_app in Hr. cbn in Hr.
    destruct bs; [congruence|cbn in Hr; lia].
Qed.

(** X6.  The outputs hold one row per row of the input: [y] has
    [rows * n_units] entries and [log_det] has [rows] entries, as their
    shapes say; on an empty batch both are empty. *)
Theorem outputs_one_per_row
    (self0 self : PlanarNormalizingFlow (F:=F) Initializer Regularizer)
    (x0 x : Tensor (@Node F)) (bs : list nat) :
  _build self0 x0 = Ok self ->
  shape x = bs ++ [last (shape x0) 0] ->
  bs <> [] ->
  exists y log_det,
    _transform self x true true = Ok (Some y, Some log_det) /\
    length (data y) = size bs * last (shape x0) 0 /\
    length (data log_det) = size bs /\
    full y /\ full log_det /\
    (size bs = 0 -> data y = [] /\ data log_det = []).
Proof.
  intros Hb Hs Hbs.
  destruct (built_of_build self0 x0 Hb) as [Hbf _].
  set (n := last (shape x0) 0) in *.
  destruct (_transform_spec x Hbf Hs Hbs)
    as (y & ld & Ht & [Sy Ly] & [Sl Ll] & _).
  exists y, ld. split; [apply (Ht true true)|].
  split; [exact Ly|]. split; [exact Ll|]. split; [|split].
  - unfold full. rewrite Ly, Sy, size_app. cbn. lia.
  - unfold full. rewrite Ll, Sl. reflexivity.
  - intros Hz. rewrite Hz in Ly, Ll. cbn in Ly.
    split; apply length_zero_iff_nil; assumption.
Qed.

(** X7.  Rows do not mix: in a session where row [i] of [x] and row [i']
    of [x'] hold the same values, row [i] of the output for [x] and row
    [i'] of the output for [x'] are the same, for [y] and for [log_det],
    whatever the other rows hold. *)
Theorem rows_independent
    (self0 self : PlanarNormalizingFlow (F:=F) Initializer Regularizer)
    (x0 x x' : Tensor (@Node F)) (bs bs' : list nat) :
  _build self0 x0 = Ok self ->
  shape x = bs ++ [last (shape x0) 0] -> bs <> [] ->
  shape x' = bs' ++ [last (shape x0) 0] -> bs' <> [] ->
  exists y log_det y' log_det',
    _transform self x true true = Ok (Some y, Some log_det) /\
    _transform self x' true true = Ok (Some y', Some log_det') /\
    forall (st : Session) (i i' : nat),
      i < size bs -> i' < size bs' ->
      (forall k, k < last (shape x0) 0 ->
          row (run st x) (last (shape x0) 0) i k
          = row (run st x') (last (shape x0) 0) i' k) ->
      (forall j, j < last (shape x0) 0 ->
          entry (run st y) (i * last (shape x0) 0 + j)
          = entry (run st y') (i' * last (shape x0) 0 + j)) /\
      entry (run st log_det) i = entry (run st log_det') i'.
Proof.
  intros Hb Hs Hbs Hs' Hbs'.
  destruct (built_of_build self0 x0 Hb) as [Hbf _].
  set (n := last (shape x0) 0) in *.
  destruct (_transform_spec x Hbf Hs Hbs) as (y & ld & Ht & _ & _ & Ey & El).
  destruct (_transform_spec x' Hbf Hs' Hbs')
    as (y' & ld' & Ht' & _ & _ & Ey' & El').
  exists y, ld, y', ld'.
  split; [apply (Ht true true)|]. split; [apply (Ht' true true)|].
  intros st i i' Hi Hi' Hrow.
  assert (Hr : forall k, k < n -> row x n i k st = row x' n i' k st)
    by (intros k Hk; rewrite <- !row_run; apply Hrow; exact Hk).
  split.
  - intros j Hj.
    rewrite !entry_run, Ey, Ey', !planar_y_run by assumption.
    apply planar_y_ext; assumption.
  - rewrite !entry_run, El, El', !planar_log_det_run by assumption.
    apply planar_log_det_ext; auto.
Qed.

(** X8.  Only the number of rows matters, not how the leading dimensions
    split it: two inputs with the same entries and the same number of
    rows give outputs with the same entries, whatever their leading
    shapes (of any rank). *)
Theorem leading_shape_irrelevant
    (self0 self : PlanarNormalizingFlow (F:=F) Initializer Regularizer)
    (x0 x x' : Tensor (@Node F)) (bs bs' : list nat) :
  _build self0 x0 = Ok self ->
  shape x = bs ++ [last (shape x0) 0] -> bs <> [] ->
  shape x' = bs' ++ [last (shape x0) 0] -> bs' <> [] ->
  data x' = data x -> size bs' = size bs ->
  exists y log_det y' log_det',
    _transform self x true true = Ok (Some y, Some log_det) /\
    _transform self x' true true = Ok (Some y', Some log_det') /\
    data y' = data y /\ data log_det' = data log_det /\
    shape y' = bs' ++ [last (shape x0) 0] /\ shape log_det' = bs'.
Proof.
  intros Hb Hs Hbs Hs' Hbs' Hd Hz.
  destruct (built_of_build self0 x0 Hb) as [Hbf _].
  set (n := last (shape x0) 0) in *.
  destruct (_transform_spec x Hbf Hs Hbs)
    as (y & ld & Ht & [Sy Ly] & [Sl Ll] & Ey & El).
  destruct (_transform_spec x' Hbf Hs' Hbs')
    as (y' & ld' & Ht' & [Sy' Ly'] & [Sl' Ll'] & Ey' & El').
  rewrite Hz in *.
  assert (Hrow : forall i, row x' n i = row x n i).
  { intros i. unfold row, entry. rewrite Hd. reflexivity. }
  exists y, ld, y', ld'.
  split; [apply (Ht true true)|]. split; [apply (Ht' true true)|].
  split; [|split; [|split; assumption]].
  - apply (nth_ext _ _ (sconst 0) (sconst 0)); [congruence|].
    intros q Hq. rewrite Ly' in Hq.
    assert (Hn : n <> 0) by (intros E; rewrite E in Hq; lia).
    pose proof (Nat.div_mod_eq q n) as Hdm.
    pose proof (Nat.mod_upper_bound q n Hn) as Hj.
    assert (Hi : q / n < size bs)
      by (apply Nat.Div0.div_lt_upper_bound; lia).
    replace q with (q / n * n + q mod n) by lia.
    fold (entry y' (q / n * n + q mod n)) (entry y (q / n * n + q mod n)).
    rewrite Ey', Ey, Hrow by assumption. reflexivity.
  - apply (nth_ext _ _ (sconst 0) (sconst 0)); [congruence|].
    intros q Hq. rewrite Ll' in Hq.
    fold (entry ld' q) (entry ld q).
    rewrite El', El, Hrow by assumption. reflexivity.
Qed.

End Rows.

Lemma nth_error_map_seq {A} (f : nat -> A) (start len i : nat) (y : A) :
  nth_error (map f (seq start len)) i = Some y -> y = f (start + i).
Proof.
  revert start i. induction len as [|len IH]; intros start i H.
  - destruct i; discriminate.
  - destruct i as [|i]; cbn in H.
    + injection H as <-. rewrite Nat.add_0_r. reflexivity.
    + apply IH in H. rewrite H. f_equal. lia.
Qed.

Section Layers.
Context {F : Type} {SF : ScalarOps F}.
Variables Initializer Regularizer : Type.

(** The layers of the flows the factory makes, by position. *)
Lemma factory_layer (ambient : VarName) (n_layers : Z)
    (kw : FlowKwargs Initializer Regularizer) (name scope : option string)
    (flows : list (PlanarNormalizingFlow (F:=F) Initializer Regularizer))
    (i : nat) (fi : PlanarNormalizingFlow (F:=F) Initializer Regularizer) :
  planar_normalizing_flows ambient n_layers kw name scope
  = Ok (SequentialFlow flows) ->
  nth_error flows i = Some fi ->
  variable_scope fi
  = (ambient ++ [py_or scope (py_or name "planar_normalizing_flows")])
      ++ [format_index i]
  /\ kwargs fi = kw /\ _built fi = None.
Proof.
  unfold planar_normalizing_flows, validate_positive_int_arg.
  destruct (0 <? n_layers)%Z; [|discriminate]. cbn [bind].
  destruct (n_layers =? 1)%Z; [discriminate|].
  cbv zeta. intros H Hi. injection H as <-.
  apply nth_error_map_seq in Hi. subst fi. cbn [Nat.add].
  split; [apply layer_scope|]. split; reflexivity.
Qed.

(** X9.  The layers the factory makes do not share parameters: an
    assignment to a variable of one layer, when it does not change the
    input, changes no entry of the [y] and of the [log_det] of another
    layer. *)
Theorem factory_layers_do_not_interfere
    (ambient : VarName) (n_layers : Z)
    (kw : FlowKwargs Initializer Regularizer) (name scope : option string)
    (flows : list (PlanarNormalizingFlow (F:=F) Initializer Regularizer))
    (i j : nat)
    (fi fj self : PlanarNormalizingFlow (F:=F) Initializer Regularizer)
    (x0 x : Tensor (@Node F)) (bs : list nat)
    (st : Session) (v : VarName) (k : nat) (val : F) :
  planar_normalizing_flows ambient n_layers kw name scope
  = Ok (SequentialFlow flows) ->
  nth_error flows i = Some fi ->
  nth_error flows j = Some fj ->
  i <> j ->
  _build fi x0 = Ok self ->
  shape x = bs ++ [last (shape x0) 0] ->
  bs <> [] ->
  In v (variable_names fj) ->
  (forall q, entry (run (assign st v k val) x) q = entry (run st x) q) ->
  exists y log_det,
    _transform self x true true = Ok (Some y, Some log_det) /\
    (forall r c, r < size bs -> c < last (shape x0) 0 ->
        entry (run (assign st v k val) y) (r * last (shape x0) 0 + c)
        = entry (run st y) (r * last (shape x0) 0 + c)) /\
    (forall r, r < size bs ->
        entry (run (assign st v k val) log_det) r = entry (run st log_det) r).
Proof.
  intros Hf Hi Hj Hij Hb Hs Hbs Hv Hx.
  destruct (factory_layer _ _ _ _ _ _ Hf Hi) as (Si & _).
  destruct (factory_layer _ _ _ _ _ _ Hf Hj) as (Sj & _).
  destruct (built_of_build fi x0 Hb) as [_ Hsc].
  apply in_variable_names in Hv. destruct Hv as (leaf0 & ->).
  apply (transform_sessions_agree fi x0 x st (assign st _ k val) Hb Hs Hbs);
    [|exact Hx].
  intros leaf k' _. apply assign_other.
  rewrite Hsc, Si, Sj.
  set (inner := ambient ++ [py_or scope (py_or name "planar_normalizing_flows")]).
  rewrite <- !app_assoc. intros E.
  apply app_inv_head in E.
  apply (f_equal (hd EmptyString)) in E. cbn [hd app] in E.
  apply format_index_inj in E. congruence.
Qed.

End Layers.

(** ** The flow in exact arithmetic *)

Section RealFlow.
Variables Initializer Regularizer : Type.

(** X3.  In exact arithmetic, with real parameters and [w] not zero,
    [log_det] is a real number at every real input row: the determinant
    is [1 + (1 - tanh^2(w.x + b)) * (softplus(w.u) - 1)], it lies between
    [min(1, softplus(w.u))] and [max(1, softplus(w.u))] whatever the
    input, so it is positive and the logarithm is taken of the
    determinant itself. *)
Theorem log_det_real_and_bounded
    (self0 self : PlanarNormalizingFlow (F:=PartialReal) Initializer Regularizer)
    (x0 x : Tensor Node) (bs : list nat) (st : Session)
    (w u : nat -> R) (b : R) (i : nat) (xr : nat -> R) :
  _build self0 x0 = Ok self ->
  shape x = bs ++ [last (shape x0) 0] ->
  bs <> [] ->
  holds_parameters self (last (shape x0) 0) st w u b ->
  (exists k, k < last (shape x0) 0 /\ w k <> 0%R) ->
  i < size bs ->
  holds_row st x (last (shape x0) 0) i xr ->
  exists y log_det,
    _transform self x true true = Ok (Some y, Some log_det) /\
    entry (run st log_det) i
    = Some (ln (real_det_jac (last (shape x0) 0) w u b xr)) /\
    (Rmin 1 (softplus (rsum (last (shape x0) 0%nat) (fun k => w k * u k)))
     <= real_det_jac (last (shape x0) 0%nat) w u b xr
     <= Rmax 1 (softplus (rsum (last (shape x0) 0%nat)
                               (fun k => w k * u k))))%R /\
    (0 < real_det_jac (last (shape x0) 0%nat) w u b xr)%R.
Proof.
  intros Hb Hs Hbs Hp Hnz Hi Hx.
  destruct (@forward_real _ _ self0 self x0 x bs st w u b Hb Hs Hbs Hp Hnz) as (y & ld & Ht & Hv).
  destruct (Hv i xr Hi Hx) as [_ Hl].
  exists y, ld. split; [apply (Ht true true)|]. split; [exact Hl|].
  set (n := last (shape x0) 0) in *.
  pose proof (real_det_jac_bounds n w u b xr) as Hbd.
  split; [exact Hbd|].
  pose proof (softplus_pos (rsum n (fun k => w k * u k)%R)) as Hsp.
  destruct Hbd as [Hlo _]. revert Hlo. unfold Rmin.
  destruct (Rle_dec 1 _); lra.
Qed.

(** X10.  In exact arithmetic, with real parameters and [w] not zero,
    the forward map is one to one on rows: two input rows whose output
    rows are equal are equal. *)
Theorem forward_injective_on_rows
    (self0 self : PlanarNormalizingFlow (F:=PartialReal) Initializer Regularizer)
    (x0 x x' : Tensor Node) (bs bs' : list nat) (st : Session)
    (w u : nat -> R) (b : R) :
  _build self0 x0 = Ok self ->
  shape x = bs ++ [last (shape x0) 0] -> bs <> [] ->
  shape x' = bs' ++ [last (shape x0) 0] -> bs' <> [] ->
  holds_parameters self (last (shape x0) 0) st w u b ->
  (exists k, k < last (shape x0) 0 /\ w k <> 0%R) ->
  exists y y',
    _transform self x true false = Ok (Some y, None) /\
    _transform self x' true false = Ok (Some y', None) /\
    forall i i' xr xr',
      i < size bs -> i' < size bs' ->
      holds_row st x (last (shape x0) 0) i xr ->
      holds_row st x' (last (shape x0) 0) i' xr' ->
      (forall j, j < last (shape x0) 0 ->
          entry (run st y) (i * last (shape x0) 0 + j)
          = entry (run st y') (i' * last (shape x0) 0 + j)) ->
      forall j, j < last (shape x0) 0 -> xr j = xr' j.
Proof.
  intros Hb Hs Hbs Hs' Hbs' Hp Hnz.
  destruct (@forward_real _ _ self0 self x0 x bs st w u b Hb Hs Hbs Hp Hnz) as (y & ld & Ht & Hv).
  destruct (@forward_real _ _ self0 self x0 x' bs' st w u b Hb Hs' Hbs' Hp Hnz) as (y' & ld' & Ht' & Hv').
  exists y, y'. split; [apply (Ht true false)|].
  split; [apply (Ht' true false)|].
  intros i i' xr xr' Hi Hi' Hx Hx' Hy.
  set (n := last (shape x0) 0) in *.
  destruct (Hv i xr Hi Hx) as [Hyv _].
  destruct (Hv' i' xr' Hi' Hx') as [Hyv' _].
  assert (He : forall j, j < n -> real_y n w u b xr j = real_y n w u b xr' j).
  { intros j Hj. specialize (Hy j Hj).
    rewrite (Hyv j Hj), (Hyv' j Hj) in Hy. injection Hy as Hy. exact Hy. }
  assert (Hz : rsum n (fun k => xr k * w k)%R = rsum n (fun k => xr' k * w k)%R).
  { pose proof (@rsum_ext n (fun k => real_y n w u b xr k * w k)%R
                  (fun k => real_y n w u b xr' k * w k)%R) as Hsum.
    rewrite !real_y_projection, (@real_w_dot_u_hat n w u Hnz) in Hsum.
    pose proof (softplus_pos (rsum n (fun k => w k * u k)%R)) as Hsp.
    apply (@planar_line_injective
             (softplus (rsum n (fun k => w k * u k)%R) - 1)%R b); [lra|].
    apply Hsum. intros k Hk. rewrite (He k Hk). reflexivity. }
  intros j Hj. specialize (He j Hj). unfold real_y in He.
  rewrite Hz in He. lra.
Qed.

(** X11.  In exact arithmetic, with real parameters and [w] not zero,
    the flow moves an entry by less than the size of the entry of
    [u_hat]: [|y - x| <= |u_hat|], entry by entry, since [tanh] stays
    inside [(-1, 1)]. *)
Theorem displacement_bounded
    (self0 self : PlanarNormalizingFlow (F:=PartialReal) Initializer Regularizer)
    (x0 x : Tensor Node) (bs : list nat) (st : Session)
    (w u : nat -> R) (b : R) (i : nat) (xr : nat -> R) :
  _build self0 x0 = Ok self ->
  shape x = bs ++ [last (shape x0) 0] ->
  bs <> [] ->
  holds_parameters self (last (shape x0) 0) st w u b ->
  (exists k, k < last (shape x0) 0 /\ w k <> 0%R) ->
  i < size bs ->
  holds_row st x (last (shape x0) 0) i xr ->
  exists y,
    _transform self x true false = Ok (Some y, None) /\
    forall j, j < last (shape x0) 0 ->
      exists yv,
        entry (run st y) (i * last (shape x0) 0 + j) = Some yv /\
        (Rabs (yv - xr j) <= Rabs (real_u_hat (last (shape x0) 0%nat) w u j))%R.
Proof.
  intros Hb Hs Hbs Hp Hnz Hi Hx.
  destruct (@forward_real _ _ self0 self x0 x bs st w u b Hb Hs Hbs Hp Hnz) as (y & ld & Ht & Hv).
  destruct (Hv i xr Hi Hx) as [Hyv _].
  exists y. split; [apply (Ht true false)|].
  intros j Hj. eexists. split; [apply (Hyv j Hj)|].
  unfold real_y.
  set (t := tanh _). set (uh := real_u_hat _ w u j).
  replace (xr j + uh * t - xr j)%R with (uh * t)%R by ring.
  rewrite Rabs_mult.
  assert (Hlt : (Rabs t < 1)%R) by apply tanh_abs_lt_1.
  pose proof (Rabs_pos uh). nra.
Qed.

(** X12.  In exact arithmetic, with real parameters and [w] not zero,
    the rows on the hyperplane [w . x + b = 0] are left where they are,
    and there the determinant is [softplus(w . u)]. *)
Theorem hyperplane_fixed
    (self0 self : PlanarNormalizingFlow (F:=PartialReal) Initializer Regularizer)
    (x0 x : Tensor Node) (bs : list nat) (st : Session)
    (w u : nat -> R) (b : R) (i : nat) (xr : nat -> R) :
  _build self0 x0 = Ok self ->
  shape x = bs ++ [last (shape x0) 0] ->
  bs <> [] ->
  holds_parameters self (last (shape x0) 0) st w u b ->
  (exists k, k < last (shape x0) 0 /\ w k <> 0%R) ->
  i < size bs ->
  holds_row st x (last (shape x0) 0) i xr ->
  (rsum (last (shape x0) 0%nat) (fun k => xr k * w k) + b = 0)%R ->
  exists y log_det,
    _transform self x true true = Ok (Some y, Some log_det) /\
    (forall j, j < last (shape x0) 0 ->
        entry (run st y) (i * last (shape x0) 0 + j) = Some (xr j)) /\
    entry (run st log_det) i
    = Some (ln (softplus (rsum (last (shape x0) 0%nat)
                               (fun k => w k * u k)%R))).
Proof.
  intros Hb Hs Hbs Hp Hnz Hi Hx Hz.
  destruct (@forward_real _ _ self0 self x0 x bs st w u b Hb Hs Hbs Hp Hnz) as (y & ld & Ht & Hv).
  destruct (Hv i xr Hi Hx) as [Hyv Hl].
  exists y, ld. split; [apply (Ht true true)|]. split.
  - intros j Hj. rewrite (Hyv j Hj). unfold real_y.
    rewrite Hz, tanh_0. f_equal. ring.
  - rewrite Hl. unfold real_det_jac. rewrite Hz, tanh_0.
    f_equal. f_equal. ring.
Qed.

End RealFlow.

(** ** The further properties at work on the small flow *)

Lemma example_parameters :
  holds_parameters example_flow 2 example_session example_w example_u (-1)%R.
Proof.
  unfold holds_parameters, example_session. split; [|split].
  - intros k Hk. rewrite session_of_w.
    destruct k as [|[|k]]; [reflexivity|reflexivity|lia].
  - intros k Hk. rewrite session_of_u.
    destruct k as [|[|k]]; [reflexivity|reflexivity|lia].
  - reflexivity.
Qed.

Lemma example_w_nonzero : exists k, k < 2 /\ example_w k <> 0%R.
Proof. exists 0. split; [lia|]. unfold example_w. cbn. lra. Qed.

Lemma example_row_held : holds_row example_session example_x0 2 0 example_row.
Proof.
  intros k Hk. destruct k as [|[|k]]; [reflexivity|reflexivity|lia].
Qed.

Lemma build_then_transform_witness :
  exists y log_det,
    _transform example_flow example_x0 true true
    = Ok (Some y, Some log_det) /\
    shape y = [1; 2].
Proof.
  destruct (@build_then_transform _ _ _ _ example_flow0 example_flow
              example_x0 eq_refl) as (y & ld & Ht & Sy & _).
  exists y, ld. split; [apply (Ht true true)|exact Sy].
Defined.

Lemma accepts_exactly_witness :
  _transform example_flow example_vector true true = Raise ShapeError.
Proof.
  refine (proj2 (proj2 (@accepts_exactly _ _ _ _ example_flow0 example_flow
                          example_x0 example_vector true true eq_refl)) _).
  cbn. lia.
Defined.

Lemma outputs_one_per_row_witness :
  exists y log_det,
    _transform example_flow example_empty true true
    = Ok (Some y, Some log_det) /\
    data y = [] /\ data log_det = [].
Proof.
  destruct (@outputs_one_per_row _ _ _ _ example_flow0 example_flow
              example_x0 example_empty [0] eq_refl eq_refl
              ltac:(discriminate))
    as (y & ld & Ht & _ & _ & _ & _ & He).
  exists y, ld. split; [exact Ht|]. apply He. reflexivity.
Defined.

Lemma rows_independent_witness :
  exists y log_det y' log_det',
    _transform example_flow example_x true true
    = Ok (Some y, Some log_det) /\
    _transform example_flow example_x_alt true true
    = Ok (Some y', Some log_det') /\
    entry (run example_session y) 2 = entry (run example_session y') 2.
Proof.
  destruct (@rows_independent _ _ _ _ example_flow0 example_flow
              example_x0 example_x example_x_alt [2; 1] [1; 2]
              eq_refl eq_refl ltac:(discriminate) eq_refl ltac:(discriminate))
    as (y & ld & y' & ld' & Ht & Ht' & H).
  exists y, ld, y', ld'. split; [exact Ht|]. split; [exact Ht'|].
  apply (proj1 (H example_session 1 1 ltac:(cbn; lia) ltac:(cbn; lia)
                  ltac:(intros k Hk; reflexivity)) 0).
  cbn. lia.
Defined.

Lemma leading_shape_irrelevant_witness :
  exists y log_det y' log_det',
    _transform example_flow example_x true true
    = Ok (Some y, Some log_det) /\
    _transform example_flow example_x_alt true true
    = Ok (Some y', Some log_det') /\
    data y' = data y /\ data log_det' = data log_det /\
    shape y' = [1; 2; 2] /\ shape log_det' = [1; 2].
Proof.
  exact (@leading_shape_irrelevant _ _ _ _ example_flow0 example_flow
           example_x0 example_x example_x_alt [2; 1] [1; 2]
           eq_refl eq_refl ltac:(discriminate) eq_refl ltac:(discriminate)
           eq_refl eq_refl).
Defined.

Lemma factory_layers_do_not_interfere_witness :
  exists y log_det,
    _transform example_layer0_built example_x0 true true
    = Ok (Some y, Some log_det) /\
    entry (run (assign example_session
                  ["planar_normalizing_flows"; "_1"; "w"]%string 0
                  (Some 5%R)) y) 0
    = entry (run example_session y) 0.
Proof.
  destruct (@factory_layers_do_not_interfere _ _ _ _ [] 3 example_kwargs
              None None example_layers 0 1 (example_layer 0)
              (example_layer 1) example_layer0_built example_x0 example_x0
              [1] example_session
              ["planar_normalizing_flows"; "_1"; "w"]%string 0 (Some 5%R)
              eq_refl eq_refl eq_refl ltac:(discriminate) eq_refl eq_refl
              ltac:(discriminate))
    as (y & ld & Ht & Hy & _).
  - cbn. left. reflexivity.
  - intros q. reflexivity.
  - exists y, ld. split; [exact Ht|]. apply (Hy 0 0); cbn; lia.
Defined.

Lemma log_det_real_and_bounded_witness :
  exists y log_det,
    _transform example_flow example_x0 true true
    = Ok (Some y, Some log_det) /\
    entry (run example_session log_det) 0
    = Some (ln (real_det_jac 2 example_w example_u (-1) example_row)) /\
    (0 < real_det_jac 2 example_w example_u (-1) example_row)%R.
Proof.
  destruct (@log_det_real_and_bounded _ _ example_flow0 example_flow
              example_x0 example_x0 [1] example_session
              example_w example_u (-1)%R 0 example_row
              eq_refl eq_refl ltac:(discriminate) example_parameters
              example_w_nonzero ltac:(cbn; lia) example_row_held)
    as (y & ld & Ht & Hl & _ & Hpos).
  exists y, ld. auto.
Defined.

Lemma forward_injective_on_rows_witness :
  exists y,
    _transform example_flow example_x0 true false = Ok (Some y, None) /\
    forall xr xr',
      holds_row example_session example_x0 2 0 xr ->
      holds_row example_session example_x0 2 0 xr' ->
      forall j, j < 2 -> xr j = xr' j.
Proof.
  destruct (@forward_injective_on_rows _ _ example_flow0 example_flow
              example_x0 example_x0 example_x0 [1] [1] example_session
              example_w example_u (-1)%R
              eq_refl eq_refl ltac:(discriminate) eq_refl ltac:(discriminate)
              example_parameters example_w_nonzero)
    as (y & y' & Ht & Ht' & H).
  exists y. split; [exact Ht|].
  intros xr xr' Hx Hx'.
  apply (H 0 0 xr xr' ltac:(cbn; lia) ltac:(cbn; lia) Hx Hx').
  intros j Hj. rewrite Ht in Ht'. injection Ht' as <-. reflexivity.
Defined.

Lemma displacement_bounded_witness :
  exists y,
    _transform example_flow example_x0 true false = Ok (Some y, None) /\
    exists yv,
      entry (run example_session y) 0 = Some yv /\
      (Rabs (yv - example_row 0) <= Rabs (real_u_hat 2 example_w example_u 0))%R.
Proof.
  destruct (@displacement_bounded _ _ example_flow0 example_flow
              example_x0 example_x0 [1] example_session
              example_w example_u (-1)%R 0 example_row
              eq_refl eq_refl ltac:(discriminate) example_parameters
              example_w_nonzero ltac:(cbn; lia) example_row_held)
    as (y & Ht & H).
  exists y. split; [exact Ht|]. apply (H 0). cbn. lia.
Defined.

Lemma hyperplane_fixed_witness :
  exists y log_det,
    _transform example_flow example_x0 true true
    = Ok (Some y, Some log_det) /\
    entry (run example_session y) 0 = Some 1%R /\
    entry (run example_session y) 1 = Some 2%R.
Proof.
  destruct (@hyperplane_fixed _ _ example_flow0 example_flow
              example_x0 example_x0 [1] example_session
              example_w example_u (-1)%R 0 example_row
              eq_refl eq_refl ltac:(discriminate) example_parameters
              example_w_nonzero ltac:(cbn; lia) example_row_held)
    as (y & ld & Ht & Hy & _).
  - unfold rsum, example_row, example_w. cbn. lra.
  - exists y, ld. split; [exact Ht|].
    split; [apply (Hy 0); cbn; lia|apply (Hy 1); cbn; lia].
Defined.
